(** * whats-wrong-python: the annotation graph model and its diff

    A shallow embedding of [nlp_model/edge.py] and
    [nlp_model/nlp_instance.py].  Python [int] is [Z], [str] is [string],
    [None]-able attributes are [option], the [token_map] dict is a
    [gmap Z Token], lists are lists, and methods that mutate [self] or raise
    are computations in a small state-and-exception monad over the
    instance. *)

From stdpp Require Import prelude gmap strings.
From Stdlib Require Import ZArith Lia Ascii.

Local Open Scope Z_scope.

(** ** Tokens *)

(** Modelled from the spec: the class [Token] ([nlp_model/token.py] is not
    part of the sources).  A token has an integer [index], an ordered
    mapping of named string properties and the flag [is_actual];
    [Token(index, is_actual=False)] starts with no property. *)
Record Token := mkToken {
  index : Z;
  token_properties : list (string * string);
  is_actual : bool
}.

Definition Token_init (i : Z) (actual : bool) : Token :=
  {| index := i; token_properties := []; is_actual := actual |}.

(** Modelled from the spec: [Token.__eq__], "ordering/equality is by
    [index]". *)
Definition Token_eq (t u : Token) : bool := index t =? index u.

(** ** Edges *)

Inductive EdgeRenderType := span | dependency.

#[global] Instance EdgeRenderType_eq_dec : EqDecision EdgeRenderType.
Proof. solve_decision. Defined.

(** The attributes of [Edge.__init__].  [label], [edge_type], [note],
    [render_type] and [description] can be [None]: [NLPInstance.add_edge]
    passes its [None] defaults through. *)
Record Edge := mkEdge {
  start : Token;
  end_ : Token;
  label : option string;
  edge_type : option string;
  note : option string;
  render_type : option EdgeRenderType;
  description : option string;
  is_final : bool
}.

Definition get_min_index (e : Edge) : Z := Z.min (index (start e)) (index (end_ e)).
Definition get_max_index (e : Edge) : Z := Z.max (index (start e)) (index (end_ e)).

(** Python's chained comparisons [a < b <= c < d] are the conjunction of
    the adjacent comparisons. *)
Definition covers (self edge : Edge) : bool :=
  (get_min_index self <? get_min_index edge)
  && (get_min_index edge <=? get_max_index edge)
  && (get_max_index edge <? get_max_index self).

Definition covers_exactly (self edge : Edge) : bool :=
  (get_min_index edge =? get_min_index self)
  && (get_min_index self <=? get_max_index self)
  && (get_max_index self =? get_max_index edge).

Definition overlaps (self edge : Edge) : bool :=
  ((get_min_index self <=? get_min_index edge)
   && (get_min_index edge <=? get_max_index self)
   && (get_max_index self <=? get_max_index edge))
  || ((get_min_index edge <=? get_min_index self)
      && (get_min_index self <=? get_max_index self)
      && (get_max_index self <=? get_min_index edge)
      && (get_min_index edge <=? get_max_index edge)).

Definition crosses (self edge : Edge) : bool :=
  ((get_min_index self <? get_min_index edge)
   && (get_min_index edge <? get_max_index self)
   && (get_max_index self <? get_max_index edge))
  || ((get_min_index edge <? get_min_index self)
      && (get_min_index self <? get_max_index edge)
      && (get_max_index edge <? get_max_index self)).

(** An edge between the tokens at two positions, every other attribute at
    the defaults of [Edge.__init__]. *)
Definition arc (i j : Z) : Edge :=
  {| start := Token_init i false; end_ := Token_init j false;
     label := Some "l"; edge_type := Some "dep"; note := None;
     render_type := Some dependency; description := Some "No Description";
     is_final := true |}.

(** [Edge.__eq__]: [isinstance] holds for every [Edge]; [start] and [end]
    are compared with [Token.__eq__], the strings with [==] ([None] equals
    only [None]). *)
Definition Edge_eq (self other : Edge) : bool :=
  Token_eq (start self) (start other)
  && Token_eq (end_ self) (end_ other)
  && bool_decide (label self = label other)
  && bool_decide (edge_type self = edge_type other)
  && bool_decide (note self = note other).

(** ** Hashing

    The builtin [hash] is a parameter: [hash_str] on strings (CPython salts
    it per process), [hash_token] on tokens ([Token.__hash__] is not part of
    the sources) and [hash_int], which reduces the integer returned by a
    [__hash__] method to a machine word. *)
Section Hashing.

Variable hash_str : string -> Z.
Variable hash_token : Token -> Z.
Variable hash_int : Z -> Z.

Definition hash_opt_str (result : Z) (s : option string) : Z :=
  match s with
  | Some s => result + hash_str s
  | None => result
  end.

(** [Edge.__hash__], on Python's unbounded integers.  [start] and [end]
    are tokens here, never [None]. *)
Definition Edge_hash (self : Edge) : Z :=
  let result := hash_token (start self) in
  let result := result * 31 in
  let result := result + hash_token (end_ self) in
  let result := result * 31 in
  let result := hash_opt_str result (label self) in
  let result := result * 31 in
  let result := hash_opt_str result (edge_type self) in
  let result := result * 31 in
  hash_opt_str result (note self).

(** The test a set applies to a stored entry when a key is looked up. *)
Definition Edge_same_key (entry key : Edge) : bool :=
  (hash_int (Edge_hash entry) =? hash_int (Edge_hash key)) && Edge_eq entry key.

End Hashing.

(** ** Python sets

    A [set]/[frozenset] keeps one entry per key: looking a key up compares
    it with the stored entries by [same_key entry key] (equal hashes and
    [entry == key]).  A set is modelled by the list of its entries in
    insertion order.  CPython iterates a set in an order that depends on
    the hashes, so the theorems only rely on which entries a set holds and
    on how many. *)
Section PySet.

Context {A : Type}.
Variable same_key : A -> A -> bool.

Definition set_contains (s : list A) (key : A) : bool :=
  existsb (fun entry => same_key entry key) s.

(** [set.add]: a key that is already present is not stored again. *)
Definition set_add (s : list A) (key : A) : list A :=
  if set_contains s key then s else s ++ [key].

(** [{x for x in iterable}] and [frozenset(iterable)]. *)
Definition set_from_iterable (l : list A) : list A :=
  fold_left set_add l [].

(** [so - other]: the entries of [so] that [other] does not contain. *)
Definition set_difference (so other : list A) : list A :=
  List.filter (fun key => negb (set_contains other key)) so.

(** [so & other]: CPython walks the smaller operand (the right one when the
    sizes agree) and keeps its entries that the other operand contains. *)
Definition set_intersection (so other : list A) : list A :=
  if (length so <? length other)%nat
  then List.filter (set_contains other) so
  else List.filter (set_contains so) other.

(** No two entries of a set have the same key. *)
Fixpoint distinct_keys (s : list A) : Prop :=
  match s with
  | [] => True
  | x :: s' => set_contains s' x = false /\ distinct_keys s'
  end.

End PySet.

(** ** Annotation graphs *)

Inductive RenderType := single | alignment.

Record NLPInstance := mkNLPInstance {
  tokens : list Token;
  token_map : gmap Z Token;
  edges : list Edge;
  instance_render_type : RenderType;
  split_points : list Z
}.

Definition set_tokens (ts : list Token) (self : NLPInstance) : NLPInstance :=
  mkNLPInstance ts (token_map self) (edges self)
                (instance_render_type self) (split_points self).
Definition set_token_map (tm : gmap Z Token) (self : NLPInstance) : NLPInstance :=
  mkNLPInstance (tokens self) tm (edges self)
                (instance_render_type self) (split_points self).
Definition set_edges (es : list Edge) (self : NLPInstance) : NLPInstance :=
  mkNLPInstance (tokens self) (token_map self) es
                (instance_render_type self) (split_points self).
Definition set_render_type (rt : RenderType) (self : NLPInstance) : NLPInstance :=
  mkNLPInstance (tokens self) (token_map self) (edges self)
                rt (split_points self).
Definition set_split_points (sp : list Z) (self : NLPInstance) : NLPInstance :=
  mkNLPInstance (tokens self) (token_map self) (edges self)
                (instance_render_type self) sp.

(** [for t in tokens: token_map[t.index] = t] *)
Definition register_tokens (ts : list Token) (tm : gmap Z Token) : gmap Z Token :=
  fold_left (fun m t => <[index t := t]> m) ts tm.

(** [NLPInstance.__init__]; an omitted argument is [None]. *)
Definition NLPInstance_init (ts : option (list Token)) (es : option (list Edge))
    (rt : RenderType) (sp : option (list Z)) : NLPInstance :=
  {| tokens := default [] ts;
     token_map := register_tokens (default [] ts) ∅;
     edges := default [] es;
     instance_render_type := rt;
     split_points := default [] sp |}.

(** ** Methods: state and exceptions

    A method runs on the instance [self], may change it, and returns a
    value or raises. *)
Inductive PyExc := KeyError | TypeError | IndexError.

Inductive result (A : Type) :=
| Ok (a : A)
| Raise (e : PyExc).
Arguments Ok {A} a.
Arguments Raise {A} e.

Definition M (A : Type) : Type := NLPInstance -> result A * NLPInstance.

Definition ret {A} (a : A) : M A := fun self => (Ok a, self).
Definition raise {A} (e : PyExc) : M A := fun self => (Raise e, self).
Definition bind {A B} (m : M A) (k : A -> M B) : M B :=
  fun self =>
    match m self with
    | (Ok a, self') => k a self'
    | (Raise e, self') => (Raise e, self')
    end.
Definition get : M NLPInstance := fun self => (Ok self, self).
Definition modify (f : NLPInstance -> NLPInstance) : M unit :=
  fun self => (Ok tt, f self).

Notation "'let*' x ':=' m 'in' k" := (bind m (fun x => k))
  (at level 10, x name, m at level 100, k at level 200, only parsing).
Notation "m ';;' k" := (bind m (fun _ => k))
  (at level 100, k at level 200, right associativity, only parsing).

(** [for x in l: body(x)] *)
Fixpoint for_each {A} (l : list A) (body : A -> M unit) : M unit :=
  match l with
  | [] => ret tt
  | x :: l' => body x ;; for_each l' body
  end.

(** [d[key]] on a dict. *)
Definition dict_getitem (d : gmap Z Token) (key : Z) : M Token :=
  match d !! key with
  | Some v => ret v
  | None => raise KeyError
  end.

(** [l[i]] on a list, for an index that is not negative. *)
Definition list_getitem {A} (l : list A) (i : nat) : M A :=
  match l !! i with
  | Some v => ret v
  | None => raise IndexError
  end.

(** [f(...)] where [f] is a list: "'list' object is not callable". *)
Definition call_list {A B} (f : list A) : M B := raise TypeError.

(** [a + b] where [b] is a string: [None + str] is a [TypeError]. *)
Definition str_add (a : option string) (b : string) : M string :=
  match a with
  | Some s => ret (s +:+ b)
  | None => raise TypeError
  end.

(** [Edge(start, end, label, edge_type, note, render_type, description,
    is_final)], the arguments in the order of [Edge.__init__]. *)
Definition Edge_init (s e : Token) (l ty n : option string)
    (rt : option EdgeRenderType) (d : option string) (f : bool) : Edge :=
  {| start := s; end_ := e; label := l; edge_type := ty; note := n;
     render_type := rt; description := d; is_final := f |}.

Definition is_valid_edge (self : NLPInstance) (start_ end' : Z) : bool :=
  bool_decide (is_Some (token_map self !! start_))
  && bool_decide (is_Some (token_map self !! end')).

Definition add_edge (start_ end' : Z) (label_ edge_type_ : option string)
    (render_type_ : option EdgeRenderType) (desc note_ : option string)
    (is_final_ : bool) : M unit :=
  let* self := get in
  if is_valid_edge self start_ end' then
    let* s := dict_getitem (token_map self) start_ in
    let* e := dict_getitem (token_map self) end' in
    modify (fun self =>
      set_edges (edges self ++ [Edge_init s e label_ edge_type_ note_
                                          render_type_ desc is_final_]) self)
  else raise KeyError.

Definition add_tokens (ts : list Token) : M unit :=
  modify (fun self =>
    set_token_map (register_tokens ts (token_map self))
                  (set_tokens (tokens self ++ ts) self)).

Definition add_edges (es : list Edge) : M unit :=
  modify (fun self => set_edges (edges self ++ es) self).

Definition add_split_point (token_index : Z) : M unit :=
  modify (fun self => set_split_points (split_points self ++ [token_index]) self).

(** [add_token(index=None, is_actual=False)].  With an index, the token
    is read with [self.token_map[index]]; the values of [token_map] are
    tokens, so the branch [if vertex is None] is never taken. *)
Definition add_token (index_ : option Z) (is_actual_ : bool) : M Token :=
  match index_ with
  | None =>
      let* self := get in
      let vertex := Token_init (Z.of_nat (length (tokens self))) is_actual_ in
      modify (fun self =>
        set_token_map (<[index vertex := vertex]> (token_map self))
                      (set_tokens (tokens self ++ [vertex]) self)) ;;
      ret vertex
  | Some i =>
      let* self := get in
      let* vertex := dict_getitem (token_map self) i in
      ret vertex
  end.

(** The body of [merge]'s second loop: one edge of the other instance is
    added again between the tokens of [self] at the same positions;
    [desc] and [is_final] keep the defaults of [add_edge]. *)
Definition merge_edge (edge : Edge) : M unit :=
  add_edge (index (start edge)) (index (end_ edge)) (label edge)
           (edge_type edge) (render_type edge) None (note edge) true.

Section Merge.

(** [Token.merge] is not part of the sources: any computation on the
    instance that owns the token. *)
Variable Token_merge : Token -> Token -> M unit.

(** [merge]: both loops read their operand by calling a list,
    [nlp.tokens(i)] and [nlp.edges()]. *)
Definition merge (nlp : NLPInstance) : M unit :=
  let* self := get in
  for_each (seq 0 (Nat.min (length (tokens self)) (length (tokens nlp))))
    (fun i =>
       let* self := get in
       let* t := list_getitem (tokens self) i in
       let* other := call_list (tokens nlp) in
       Token_merge t other) ;;
  let* nlp_edges := call_list (edges nlp) in
  for_each nlp_edges merge_edge.

End Merge.

(** ** The diff *)
Section Diff.

Variable hash_str : string -> Z.
Variable hash_token : Token -> Z.
Variable hash_int : Z -> Z.

(** [get_edges(render_type=None)]: the frozenset of the edges with the
    given render type, of all edges when it is omitted. *)
Definition get_edges (self : NLPInstance) (render_type_ : option EdgeRenderType)
  : list Edge :=
  set_from_iterable (Edge_same_key hash_str hash_token hash_int)
    (List.filter
       (fun e => bool_decide (render_type e = render_type_)
                 || bool_decide (render_type_ = None))
       (edges self)).

Definition goldIdentities (gold_instance : NLPInstance) : list Edge :=
  get_edges gold_instance None.
Definition guessIdentities (guess_instance : NLPInstance) : list Edge :=
  get_edges guess_instance None.

(** The three sets of [nlp_diff]. *)
Definition diff_fn (gold_instance guess_instance : NLPInstance) : list Edge :=
  set_difference (Edge_same_key hash_str hash_token hash_int)
    (goldIdentities gold_instance) (guessIdentities guess_instance).
Definition diff_fp (gold_instance guess_instance : NLPInstance) : list Edge :=
  set_difference (Edge_same_key hash_str hash_token hash_int)
    (guessIdentities guess_instance) (goldIdentities gold_instance).
Definition diff_matches (gold_instance guess_instance : NLPInstance) : list Edge :=
  set_intersection (Edge_same_key hash_str hash_token hash_int)
    (goldIdentities gold_instance) (guessIdentities guess_instance).

(** The body of each of the three loops of [nlp_diff]. *)
Definition add_diff_edge (suffix : string) (edge : Edge) : M unit :=
  let* Type_ := str_add (edge_type edge) suffix in
  add_edge (index (start edge)) (index (end_ edge)) (label edge) (Some Type_)
           (render_type edge) (description edge) (note edge) true.

(** The statements of [nlp_diff], run on the fresh instance [diff]. *)
Definition nlp_diff_body (gold_instance guess_instance : NLPInstance) : M unit :=
  modify (set_render_type (instance_render_type gold_instance)) ;;
  for_each (split_points gold_instance) add_split_point ;;
  add_tokens (tokens gold_instance) ;;
  for_each (diff_fn gold_instance guess_instance) (add_diff_edge ":FN") ;;
  for_each (diff_fp gold_instance guess_instance) (add_diff_edge ":FP") ;;
  for_each (diff_matches gold_instance guess_instance) (add_diff_edge ":Match").

Definition nlp_diff (gold_instance guess_instance : NLPInstance)
  : result NLPInstance :=
  match nlp_diff_body gold_instance guess_instance
          (NLPInstance_init None None single None) with
  | (Ok _, diff) => Ok diff
  | (Raise e, _) => Raise e
  end.

End Diff.

(** ** More of [Edge] *)

(** [s.find(c)] for a one-character [c]: the position of its first
    occurrence, [-1] when there is none. *)
Fixpoint str_find (c : Ascii.ascii) (s : string) : Z :=
  match s with
  | EmptyString => -1
  | String a s' =>
      if Ascii.eqb a c then 0
      else let i := str_find c s' in if i =? -1 then -1 else i + 1
  end.

Fixpoint str_take (n : nat) (s : string) : string :=
  match n, s with
  | S n', String a s' => String a (str_take n' s')
  | _, _ => EmptyString
  end.

Fixpoint str_drop (n : nat) (s : string) : string :=
  match n, s with
  | S n', String _ s' => str_drop n' s'
  | _, _ => s
  end.

(** The slices [s[0:i]] and [s[i:]] for a bound [i] that is not
    negative. *)
Definition str_slice_to (s : string) (i : Z) : string := str_take (Z.to_nat i) s.
Definition str_slice_from (s : string) (i : Z) : string := str_drop (Z.to_nat i) s.

(** [get_type_prefix] and [get_type_postfix]; the result [None] stands for
    the [AttributeError] of [self.edge_type.find] on a type that is
    [None]. *)
Definition get_type_prefix (self : Edge) : option string :=
  match edge_type self with
  | None => None
  | Some t =>
      let index_ := str_find ":"%char t in
      if index_ =? -1 then Some t else Some (str_slice_to t index_)
  end.

Definition get_type_postfix (self : Edge) : option string :=
  match edge_type self with
  | None => None
  | Some t =>
      let index_ := str_find ":"%char t in
      if index_ =? -1 then Some EmptyString
      else Some (str_slice_from t (index_ + 1))
  end.

(** [a < b] and [a > b] on values that are strings or [None]: strings
    compare by code points, a comparison with [None] is a [TypeError]. *)
Definition str_lt (a b : option string) : result bool :=
  match a, b with
  | Some x, Some y => Ok (String.ltb x y)
  | _, _ => Raise TypeError
  end.

Definition str_gt (a b : option string) : result bool :=
  match a, b with
  | Some x, Some y => Ok (String.ltb y x)
  | _, _ => Raise TypeError
  end.

(** [if c: yes else: no] where the test [c] may raise. *)
Definition if_test {A} (c : result bool) (yes no : result A) : result A :=
  match c with
  | Ok true => yes
  | Ok false => no
  | Raise e => Raise e
  end.

(** [lexicographic_order]: the chain of [if]/[elif] tests in order. *)
Definition lexicographic_order (self edge : Edge) : result Z :=
  if_test (str_lt (edge_type self) (edge_type edge)) (Ok (-1))
  (if_test (str_gt (edge_type self) (edge_type edge)) (Ok 1)
  (if_test (str_lt (label self) (label edge)) (Ok 1)
  (if_test (str_gt (label self) (label edge)) (Ok (-1))
  (if_test (match note self with
            | None => Ok false
            | Some _ => str_lt (note self) (note edge)
            end) (Ok 1)
  (if_test (match note self with
            | None => Ok false
            | Some _ => str_gt (note self) (note edge)
            end) (Ok (-1))
  (Ok 0)))))).

Definition left_of (self : Edge) (token : Token) : bool :=
  (index (start self) <=? index token) && (index (end_ self) <=? index token).

Definition right_of (self : Edge) (token : Token) : bool :=
  (index (start self) >=? index token) && (index (end_ self) >=? index token).

Definition covers_semi (self edge : Edge) : bool :=
  ((get_min_index self <? get_min_index edge)
   && (get_min_index edge <=? get_max_index edge)
   && (get_max_index edge =? get_max_index self))
  || ((get_min_index self =? get_min_index edge)
      && (get_min_index edge <=? get_max_index edge)
      && (get_max_index edge <? get_max_index self)).

Definition strictly_covers (self edge : Edge) : bool :=
  ((get_min_index self <? get_min_index edge)
   && (get_min_index edge <=? get_max_index edge)
   && (get_max_index edge <=? get_max_index self))
  || ((get_min_index self <=? get_min_index edge)
      && (get_min_index edge <=? get_max_index edge)
      && (get_max_index edge <? get_max_index self)).

(** [Edge.__len__] *)
Definition Edge_len (self : Edge) : Z :=
  Z.abs (index (start self) - index (end_ self)).

(** ** More of [NLPInstance] *)

(** [add_span]: the edge is built with [render_type=EdgeRenderType.span]
    and [description=desc]; [note] and [is_final] keep the defaults of
    [Edge.__init__]. *)
Definition add_span (start_ end' : Z) (label_ span_type desc : option string)
  : M unit :=
  let* self := get in
  if is_valid_edge self start_ end' then
    let* s := dict_getitem (token_map self) start_ in
    let* e := dict_getitem (token_map self) end' in
    modify (fun self =>
      set_edges (edges self ++ [Edge_init s e label_ span_type None
                                          (Some span) desc true]) self)
  else raise KeyError.

Definition add_dependency (start_ end' : Z) (label_ dep_type desc : option string)
    (is_final_ : bool) : M unit :=
  let* self := get in
  if is_valid_edge self start_ end' then
    let* s := dict_getitem (token_map self) start_ in
    let* e := dict_getitem (token_map self) end' in
    modify (fun self =>
      set_edges (edges self ++ [Edge_init s e label_ dep_type None
                                          (Some dependency) desc is_final_]) self)
  else raise KeyError.

Definition get_token (index_ : Z) : M Token :=
  let* self := get in
  dict_getitem (token_map self) index_.

(** The shape the methods that build an instance keep: the keys of
    [token_map] are the indices of the tokens, each key holds a token of
    the list with that index, and both positions of every edge are
    keys. *)
Definition well_formed (self : NLPInstance) : Prop :=
  (forall i : Z, is_Some (token_map self !! i) <-> In i (map index (tokens self)))
  /\ (forall (i : Z) (t : Token),
         token_map self !! i = Some t -> index t = i /\ In t (tokens self))
  /\ (forall e : Edge,
         In e (edges self) ->
         is_Some (token_map self !! index (start e))
         /\ is_Some (token_map self !! index (end_ e))).

(** ** Vocabulary of the statements *)

(** An edge [nlp_diff] can add to the diff of [gold]: its type is a string
    and both its positions are indices of tokens of [gold]. *)
Definition diffable (gold : NLPInstance) (e : Edge) : Prop :=
  is_Some (edge_type e)
  /\ In (index (start e)) (map index (tokens gold))
  /\ In (index (end_ e)) (map index (tokens gold)).

Definition diffableb (gold : NLPInstance) (e : Edge) : bool :=
  bool_decide (is_Some (edge_type e))
  && existsb (Z.eqb (index (start e))) (map index (tokens gold))
  && existsb (Z.eqb (index (end_ e))) (map index (tokens gold)).

(** [added_as tm suffix e e']: [e'] is the edge [add_diff_edge suffix e]
    builds on an instance whose [token_map] is [tm]. *)
Definition added_as (tm : gmap Z Token) (suffix : string) (e e' : Edge) : Prop :=
  exists t : string,
    edge_type e = Some t
    /\ tm !! index (start e) = Some (start e')
    /\ tm !! index (end_ e) = Some (end_ e')
    /\ e' = Edge_init (start e') (end_ e') (label e) (Some (t +:+ suffix))
                      (note e) (render_type e) (description e) true.

(** [retyped gold suffix e e']: [e'] is [e] with [suffix] appended to its
    type, between tokens of [gold] at the same positions, and final. *)
Definition retyped (gold : NLPInstance) (suffix : string) (e e' : Edge) : Prop :=
  (exists t : string,
      edge_type e = Some t /\ edge_type e' = Some (t +:+ suffix))
  /\ label e' = label e /\ note e' = note e
  /\ description e' = description e /\ render_type e' = render_type e
  /\ is_final e' = true
  /\ In (start e') (tokens gold) /\ index (start e') = index (start e)
  /\ In (end_ e') (tokens gold) /\ index (end_ e') = index (end_ e).

(** ** Sample data for concrete evaluations *)

(** Stand-ins for the builtin [hash]: the hash of a token is its index
    and the hash of a string its length. *)
Definition hash_token_index (t : Token) : Z := index t.
Definition hash_str_length (s : string) : Z := Z.of_nat (String.length s).
Definition hash_int_id (n : Z) : Z := n.

(** An instance with the tokens [0 .. n-1] and no edge, as [n] calls of
    [add_token()] build it. *)
Fixpoint add_n_tokens (n : nat) : M unit :=
  match n with
  | O => ret tt
  | S n' => add_n_tokens n' ;; add_token None false ;; ret tt
  end.

Definition sentence (n : nat) : NLPInstance :=
  snd (add_n_tokens n (NLPInstance_init None None single None)).

(** [sentence n] after [add_edge(i, j, "l", "dep")] for each pair in
    turn. *)
Fixpoint add_arcs (arcs : list (Z * Z)) : M unit :=
  match arcs with
  | [] => ret tt
  | (i, j) :: arcs' =>
      add_edge i j (Some "l") (Some "dep") (Some dependency)
               (Some "No Description") None true ;;
      add_arcs arcs'
  end.

Definition graph (n : nat) (arcs : list (Z * Z)) : NLPInstance :=
  snd (add_arcs arcs (sentence n)).

(** An edge like [arc i j] with another description, is_final and render
    type. *)
Definition arc_described (i j : Z) (d : string) (f : bool) : Edge :=
  {| start := Token_init i false; end_ := Token_init j false;
     label := Some "l"; edge_type := Some "dep"; note := None;
     render_type := Some span; description := Some d; is_final := f |}.

(** [sentence 2] after [add_edge(0, 1)], every other argument omitted:
    the edge has no type. *)
Definition untyped_graph : NLPInstance :=
  snd (add_edge 0 1 None None None None None true (sentence 2)).

(** ** Interval relations *)

Lemma covers_spec (a b : Edge) :
  covers a b = true <->
  get_min_index a < get_min_index b <= get_max_index b
  /\ get_max_index b < get_max_index a.
Proof.
  unfold covers. rewrite !andb_true_iff, !Z.ltb_lt, Z.leb_le. lia.
Qed.

Lemma min_le_max (e : Edge) : get_min_index e <= get_max_index e.
Proof. unfold get_min_index, get_max_index. lia. Qed.

(** The second disjunct of [overlaps] forces
    [self.min = self.max = edge.min], which the first disjunct already
    accepts: [overlaps] is the first chain alone. *)
Lemma overlaps_spec (a b : Edge) :
  overlaps a b = true <->
  get_min_index a <= get_min_index b <= get_max_index a
  /\ get_max_index a <= get_max_index b.
Proof.
  unfold overlaps.
  rewrite orb_true_iff, !andb_true_iff, !Z.leb_le.
  pose proof (min_le_max a). pose proof (min_le_max b). lia.
Qed.

Lemma crosses_spec (a b : Edge) :
  crosses a b = true <->
  (get_min_index a < get_min_index b < get_max_index a
   /\ get_max_index a < get_max_index b)
  \/ (get_min_index b < get_min_index a < get_max_index b
      /\ get_max_index b < get_max_index a).
Proof.
  unfold crosses. rewrite orb_true_iff, !andb_true_iff, !Z.ltb_lt. lia.
Qed.

(** C8: [covers(a,b)] holds exactly when [a.min < b.min <= b.max < a.max],
    and [covers] is a strict partial order on edges: transitive,
    asymmetric and irreflexive. *)
Theorem covers_strict_partial_order :
  (forall a b : Edge,
      covers a b = true <->
      get_min_index a < get_min_index b <= get_max_index b
      /\ get_max_index b < get_max_index a)
  /\ (forall a b c : Edge,
         covers a b = true -> covers b c = true -> covers a c = true)
  /\ (forall a b : Edge, covers a b = true -> covers b a = false)
  /\ (forall a : Edge, covers a a = false).
Proof.
  split; [exact covers_spec|].
  split; [|split].
  - intros a b c Hab Hbc.
    apply covers_spec in Hab. apply covers_spec in Hbc.
    apply covers_spec. lia.
  - intros a b Hab. apply covers_spec in Hab.
    apply not_true_is_false. intros Hba. apply covers_spec in Hba. lia.
  - intros a. apply not_true_is_false. intros H.
    apply covers_spec in H. lia.
Qed.

Lemma covers_strict_partial_order_witness :
  covers (arc 0 9) (arc 8 1) = true
  /\ covers (arc 8 1) (arc 2 3) = true
  /\ covers (arc 0 9) (arc 2 3) = true
  /\ covers (arc 8 1) (arc 0 9) = false.
Proof.
  destruct covers_strict_partial_order as (_ & Htrans & Hasym & _).
  assert (Hab : covers (arc 0 9) (arc 8 1) = true) by reflexivity.
  assert (Hbc : covers (arc 8 1) (arc 2 3) = true) by reflexivity.
  split; [exact Hab|]. split; [exact Hbc|].
  split; [exact (Htrans _ _ _ Hab Hbc) | exact (Hasym _ _ Hab)].
Defined.

(** C9: [crosses(a,b)] holds exactly when
    [a.min < b.min < a.max < b.max] or the same with [a] and [b] swapped;
    [crosses] is symmetric and irreflexive. *)
Theorem crosses_symmetric_irreflexive :
  (forall a b : Edge,
      crosses a b = true <->
      (get_min_index a < get_min_index b < get_max_index a
       /\ get_max_index a < get_max_index b)
      \/ (get_min_index b < get_min_index a < get_max_index b
          /\ get_max_index b < get_max_index a))
  /\ (forall a b : Edge, crosses a b = crosses b a)
  /\ (forall a : Edge, crosses a a = false).
Proof.
  split; [exact crosses_spec|]. split.
  - intros a b. unfold crosses. apply orb_comm.
  - intros a. apply not_true_is_false. intros H.
    apply crosses_spec in H. lia.
Qed.

(** C7: on the ranges [1,3] and [0,2], which interleave, [overlaps]
    answers [True] in one direction and [False] in the other. *)
Theorem overlaps_not_symmetric :
  overlaps (arc 0 2) (arc 1 3) = true
  /\ overlaps (arc 1 3) (arc 0 2) = false.
Proof. split; reflexivity. Qed.

(** ** Facts about Python sets *)
Section PySetFacts.

Context {A : Type}.
Variable same_key : A -> A -> bool.

Hypothesis same_key_refl : forall x, same_key x x = true.
Hypothesis same_key_sym : forall x y, same_key x y = same_key y x.
Hypothesis same_key_trans :
  forall x y z, same_key x y = true -> same_key y z = true -> same_key x z = true.

Lemma set_contains_app (s t : list A) (k : A) :
  set_contains same_key (s ++ t) k = set_contains same_key s k || set_contains same_key t k.
Proof. unfold set_contains. apply existsb_app. Qed.

Lemma set_contains_true (s : list A) (k : A) :
  set_contains same_key s k = true <-> exists e, In e s /\ same_key e k = true.
Proof. unfold set_contains. apply existsb_exists. Qed.

Lemma set_contains_false (s : list A) (k : A) :
  set_contains same_key s k = false <-> forall e, In e s -> same_key e k = false.
Proof.
  rewrite <- not_true_iff_false, set_contains_true. split.
  - intros H e He. apply not_true_iff_false. intros Hk. apply H. eauto.
  - intros H (e & He & Hk). rewrite (H e He) in Hk. discriminate.
Qed.

Lemma set_contains_In (s : list A) (k : A) :
  In k s -> set_contains same_key s k = true.
Proof. intros H. apply set_contains_true. eauto. Qed.

(** Two keys that match each other are found in the same sets. *)
Lemma set_contains_same_key (s : list A) (k k' : A) :
  same_key k k' = true -> set_contains same_key s k = set_contains same_key s k'.
Proof.
  intros Hk. apply eq_true_iff_eq. rewrite !set_contains_true.
  split; intros (e & He & Hek); exists e; split; trivial.
  - eapply same_key_trans; eauto.
  - eapply same_key_trans; [eauto|]. rewrite same_key_sym. exact Hk.
Qed.

Lemma distinct_keys_snoc (s : list A) (k : A) :
  distinct_keys same_key s -> set_contains same_key s k = false -> distinct_keys same_key (s ++ [k]).
Proof.
  induction s as [|x s IH]; simpl; intros Hd Hk.
  - auto.
  - destruct Hd as [Hx Hd]. apply orb_false_iff in Hk as [Hxk Hk].
    split; [|auto].
    rewrite set_contains_app, Hx. simpl.
    rewrite same_key_sym, Hxk. reflexivity.
Qed.

Lemma set_add_distinct (s : list A) (k : A) :
  distinct_keys same_key s -> distinct_keys same_key (set_add same_key s k).
Proof.
  intros Hd. unfold set_add.
  destruct (set_contains same_key s k) eqn:Hk; [exact Hd|].
  now apply distinct_keys_snoc.
Qed.

Lemma fold_set_add_distinct (l s : list A) :
  distinct_keys same_key s -> distinct_keys same_key (fold_left (set_add same_key) l s).
Proof.
  revert s. induction l as [|x l IH]; simpl; intros s Hd; [exact Hd|].
  apply IH. now apply set_add_distinct.
Qed.

Lemma set_from_iterable_distinct (l : list A) :
  distinct_keys same_key (set_from_iterable same_key l).
Proof. apply fold_set_add_distinct. exact I. Qed.

Lemma set_add_contains (s : list A) (x k : A) :
  set_contains same_key (set_add same_key s x) k = set_contains same_key s k || same_key x k.
Proof.
  unfold set_add. destruct (set_contains same_key s x) eqn:Hx.
  - destruct (same_key x k) eqn:Hk; [|now rewrite orb_false_r].
    rewrite orb_true_r. rewrite <- (set_contains_same_key s x k Hk). exact Hx.
  - rewrite set_contains_app. simpl. now rewrite orb_false_r.
Qed.

Lemma fold_set_add_contains (l s : list A) (k : A) :
  set_contains same_key (fold_left (set_add same_key) l s) k = set_contains same_key s k || set_contains same_key l k.
Proof.
  revert s. induction l as [|x l IH]; simpl; intros s.
  - now rewrite orb_false_r.
  - rewrite IH, set_add_contains, orb_assoc. reflexivity.
Qed.

(** A set built from a list contains exactly the keys the list has. *)
Lemma set_from_iterable_contains (l : list A) (k : A) :
  set_contains same_key (set_from_iterable same_key l) k = set_contains same_key l k.
Proof. unfold set_from_iterable. now rewrite fold_set_add_contains. Qed.

Lemma fold_set_add_In (l s : list A) (x : A) :
  In x (fold_left (set_add same_key) l s) -> In x s \/ In x l.
Proof.
  revert s. induction l as [|y l IH]; simpl; intros s Hx; [auto|].
  apply IH in Hx as [Hx|Hx]; [|auto].
  unfold set_add in Hx. destruct (set_contains same_key s y); [auto|].
  apply in_app_or in Hx as [Hx|[Hx|[]]]; auto.
Qed.

Lemma set_from_iterable_In (l : list A) (x : A) :
  In x (set_from_iterable same_key l) -> In x l.
Proof. intros H. apply fold_set_add_In in H as [[]|H]. exact H. Qed.

Lemma fold_set_add_id (l s : list A) :
  distinct_keys same_key (s ++ l) -> fold_left (set_add same_key) l s = s ++ l.
Proof.
  revert s. induction l as [|x l IH]; simpl; intros s Hd.
  - now rewrite app_nil_r.
  - assert (Hx : set_contains same_key s x = false).
    { clear IH. induction s as [|y s IHs]; simpl in *; [reflexivity|].
      destruct Hd as [Hy Hd]. rewrite set_contains_app in Hy.
      apply orb_false_iff in Hy as [_ Hy]. simpl in Hy.
      apply orb_false_iff in Hy as [Hy _].
      rewrite same_key_sym, Hy. simpl. now apply IHs. }
    unfold set_add at 2. rewrite Hx.
    replace (s ++ x :: l) with ((s ++ [x]) ++ l) in * by now rewrite <- app_assoc.
    now apply IH.
Qed.

(** A list without repeated keys is stored as it is. *)
Lemma set_from_iterable_id (l : list A) :
  distinct_keys same_key l -> set_from_iterable same_key l = l.
Proof. intros Hd. unfold set_from_iterable. now rewrite fold_set_add_id. Qed.

(** *** Counting *)

Lemma filter_split_length (p : A -> bool) (l : list A) :
  (length (List.filter p l)
   + length (List.filter (fun x => negb (p x)) l) = length l)%nat.
Proof.
  induction l as [|x l IH]; simpl; [reflexivity|].
  destruct (p x); simpl; lia.
Qed.

Lemma filter_orb_length (p q : A -> bool) (l : list A) :
  (forall x, In x l -> p x = true -> q x = false) ->
  length (List.filter (fun x => p x || q x) l)
  = (length (List.filter p l) + length (List.filter q l))%nat.
Proof.
  induction l as [|x l IH]; simpl; intros Hpq; [reflexivity|].
  specialize (IH (fun y Hy => Hpq y (or_intror Hy))).
  destruct (p x) eqn:Hp; simpl.
  - rewrite (Hpq x (or_introl eq_refl) Hp). simpl. lia.
  - destruct (q x); simpl; lia.
Qed.

(** A set holds a key at most once. *)
Lemma distinct_keys_count (s : list A) (k : A) :
  distinct_keys same_key s ->
  length (List.filter (fun e => same_key k e) s)
  = if set_contains same_key s k then 1%nat else 0%nat.
Proof.
  induction s as [|x s IH]; simpl; intros Hd; [reflexivity|].
  destruct Hd as [Hx Hd]. specialize (IH Hd).
  rewrite (same_key_sym x k).
  destruct (same_key k x) eqn:Hkx; simpl.
  - rewrite IH, (set_contains_same_key s k x Hkx), Hx. reflexivity.
  - exact IH.
Qed.

(** Two sets hold equally many entries of each other: the entries of
    [s1] found in [s2] pair off with the entries of [s2] found in [s1]. *)
Lemma common_keys_length (s1 s2 : list A) :
  distinct_keys same_key s1 -> distinct_keys same_key s2 ->
  length (List.filter (set_contains same_key s2) s1)
  = length (List.filter (set_contains same_key s1) s2).
Proof.
  intros Hd1 Hd2. induction s1 as [|a s1 IH]; simpl.
  - induction s2 as [|b s2 IH2]; simpl; [reflexivity|].
    destruct Hd2. auto.
  - destruct Hd1 as [Ha Hd1]. specialize (IH Hd1).
    rewrite (filter_orb_length (fun k => same_key a k) (set_contains same_key s1)).
    + rewrite (distinct_keys_count s2 a Hd2), <- IH.
      destruct (set_contains same_key s2 a); simpl; lia.
    + intros k _ Hak.
      rewrite <- (set_contains_same_key s1 a k Hak). exact Ha.
Qed.

(** [so & other] has as many entries whichever operand is walked. *)
Lemma set_intersection_length (so other : list A) :
  distinct_keys same_key so -> distinct_keys same_key other ->
  length (set_intersection same_key so other) = length (List.filter (set_contains same_key other) so)
  /\ length (set_intersection same_key so other) = length (List.filter (set_contains same_key so) other).
Proof.
  intros Hso Hother. unfold set_intersection.
  pose proof (common_keys_length so other Hso Hother) as Hc.
  destruct (length so <? length other)%nat; split; congruence.
Qed.

Lemma set_intersection_In (so other : list A) (x : A) :
  In x (set_intersection same_key so other) ->
  set_contains same_key so x = true /\ set_contains same_key other x = true.
Proof.
  unfold set_intersection.
  destruct (length so <? length other)%nat; intros H;
    apply filter_In in H as [Hx Hc]; split; trivial;
    now apply set_contains_In.
Qed.

Lemma set_difference_In (so other : list A) (x : A) :
  In x (set_difference same_key so other) <->
  In x so /\ set_contains same_key other x = false.
Proof.
  unfold set_difference. rewrite filter_In, negb_true_iff. reflexivity.
Qed.

End PySetFacts.

(** Two tests that agree tell the same sets apart. *)
Lemma set_contains_ext {A : Type} (k1 k2 : A -> A -> bool) (s : list A) (x : A) :
  (forall a b, k1 a b = k2 a b) ->
  set_contains k1 s x = set_contains k2 s x.
Proof.
  intros Hk. unfold set_contains.
  induction s as [|y s IH]; simpl; [reflexivity|].
  now rewrite Hk, IH.
Qed.

Lemma distinct_keys_ext {A : Type} (k1 k2 : A -> A -> bool) (s : list A) :
  (forall a b, k1 a b = k2 a b) ->
  distinct_keys k1 s -> distinct_keys k2 s.
Proof.
  intros Hk. induction s as [|x s IH]; simpl; [trivial|].
  intros [Hx Hd]. split; [|auto].
  now rewrite <- (set_contains_ext k1 k2 s x Hk).
Qed.

(** ** Edge equality and hashing *)

Lemma Token_eq_true (t u : Token) : Token_eq t u = true <-> index t = index u.
Proof. unfold Token_eq. apply Z.eqb_eq. Qed.

Lemma Edge_eq_spec (a b : Edge) :
  Edge_eq a b = true <->
  index (start a) = index (start b) /\ index (end_ a) = index (end_ b)
  /\ label a = label b /\ edge_type a = edge_type b /\ note a = note b.
Proof.
  unfold Edge_eq.
  rewrite !andb_true_iff, !Token_eq_true, !bool_decide_eq_true. tauto.
Qed.

Lemma Edge_eq_refl (a : Edge) : Edge_eq a a = true.
Proof. apply Edge_eq_spec. tauto. Qed.

Lemma Edge_eq_sym (a b : Edge) : Edge_eq a b = Edge_eq b a.
Proof.
  apply eq_true_iff_eq. rewrite !Edge_eq_spec.
  split; intros (? & ? & ? & ? & ?); auto.
Qed.

Lemma Edge_eq_trans (a b c : Edge) :
  Edge_eq a b = true -> Edge_eq b c = true -> Edge_eq a c = true.
Proof.
  rewrite !Edge_eq_spec.
  intros (? & ? & ? & ? & ?) (? & ? & ? & ? & ?).
  repeat split; congruence.
Qed.

(** The sample token hash agrees with token equality. *)
Lemma hash_token_index_compat (t u : Token) :
  Token_eq t u = true -> hash_token_index t = hash_token_index u.
Proof. intros H. apply Token_eq_true in H. exact H. Qed.

Section EdgeIdentity.

Variable hash_str : string -> Z.
Variable hash_token : Token -> Z.
Variable hash_int : Z -> Z.

(** Tokens that are equal have the same hash ([Token.__hash__] is not part
    of the sources). *)
Hypothesis hash_token_eq :
  forall t u : Token, Token_eq t u = true -> hash_token t = hash_token u.

Lemma Edge_hash_compat (a b : Edge) :
  Edge_eq a b = true ->
  Edge_hash hash_str hash_token a = Edge_hash hash_str hash_token b.
Proof.
  unfold Edge_eq. rewrite !andb_true_iff, !bool_decide_eq_true.
  intros ((((Hs & He) & Hl) & Ht) & Hn).
  unfold Edge_hash.
  rewrite (hash_token_eq _ _ Hs), (hash_token_eq _ _ He), Hl, Ht, Hn.
  reflexivity.
Qed.

(** With consistent hashes, a set tells edges apart by [==] alone. *)
Lemma Edge_same_key_eq (a b : Edge) :
  Edge_same_key hash_str hash_token hash_int a b = Edge_eq a b.
Proof.
  unfold Edge_same_key. destruct (Edge_eq a b) eqn:Hab.
  - rewrite (Edge_hash_compat a b Hab), Z.eqb_refl. reflexivity.
  - apply andb_false_r.
Qed.

Lemma Edge_same_key_refl (a : Edge) :
  Edge_same_key hash_str hash_token hash_int a a = true.
Proof. rewrite Edge_same_key_eq. apply Edge_eq_refl. Qed.

Lemma Edge_same_key_sym (a b : Edge) :
  Edge_same_key hash_str hash_token hash_int a b
  = Edge_same_key hash_str hash_token hash_int b a.
Proof. rewrite !Edge_same_key_eq. apply Edge_eq_sym. Qed.

Lemma Edge_same_key_trans (a b c : Edge) :
  Edge_same_key hash_str hash_token hash_int a b = true ->
  Edge_same_key hash_str hash_token hash_int b c = true ->
  Edge_same_key hash_str hash_token hash_int a c = true.
Proof. rewrite !Edge_same_key_eq. apply Edge_eq_trans. Qed.

(** C3: [Edge.__eq__] is decided by the five components start, end,
    label, edge_type and note (the tokens compared by index); two edges that
    agree on them, whatever their description, is_final and render type,
    are equal, and a set built from both holds one entry. *)
Theorem Edge_eq_five_components :
  (forall a b : Edge,
      Edge_eq a b = true <->
      Token_eq (start a) (start b) = true /\ Token_eq (end_ a) (end_ b) = true
      /\ label a = label b /\ edge_type a = edge_type b /\ note a = note b)
  /\ (forall a b : Edge,
         start a = start b -> end_ a = end_ b -> label a = label b ->
         edge_type a = edge_type b -> note a = note b ->
         Edge_eq a b = true
         /\ set_from_iterable (Edge_same_key hash_str hash_token hash_int) [a; b]
            = [a]).
Proof.
  split.
  - intros a b. rewrite Edge_eq_spec, !Token_eq_true. reflexivity.
  - intros a b Hs He Hl Ht Hn.
    assert (Hab : Edge_eq a b = true).
    { apply Edge_eq_spec. rewrite Hs, He. auto. }
    split; [exact Hab|].
    unfold set_from_iterable, set_add, set_contains. simpl.
    rewrite Edge_same_key_eq, Hab. reflexivity.
Qed.

(** C10: equal edges have equal hashes, so the test a set applies to its
    entries (equal hashes and [==]) is [Edge.__eq__] itself. *)
Theorem Edge_hash_respects_eq :
  (forall a b : Edge,
      Edge_eq a b = true ->
      Edge_hash hash_str hash_token a = Edge_hash hash_str hash_token b
      /\ hash_int (Edge_hash hash_str hash_token a)
         = hash_int (Edge_hash hash_str hash_token b))
  /\ (forall a b : Edge,
         Edge_same_key hash_str hash_token hash_int a b = Edge_eq a b).
Proof.
  split.
  - intros a b Hab. rewrite (Edge_hash_compat a b Hab). split; reflexivity.
  - exact Edge_same_key_eq.
Qed.

End EdgeIdentity.

Lemma Edge_eq_five_components_witness :
  Edge_eq (arc 0 1) (arc_described 0 1 "other" false) = true
  /\ set_from_iterable
       (Edge_same_key hash_str_length hash_token_index hash_int_id)
       [arc 0 1; arc_described 0 1 "other" false]
     = [arc 0 1].
Proof.
  apply (Edge_eq_five_components hash_str_length hash_token_index hash_int_id
           hash_token_index_compat); reflexivity.
Defined.

Lemma Edge_hash_respects_eq_witness :
  Edge_hash hash_str_length hash_token_index (arc 0 1)
  = Edge_hash hash_str_length hash_token_index (arc_described 0 1 "other" false).
Proof.
  apply (Edge_hash_respects_eq hash_str_length hash_token_index hash_int_id
           hash_token_index_compat).
  reflexivity.
Defined.

(** ** Lists *)

Lemma filter_true_id {A : Type} (f : A -> bool) (l : list A) :
  (forall x, f x = true) -> List.filter f l = l.
Proof.
  intros Hf. induction l as [|x l IH]; simpl; [reflexivity|].
  rewrite Hf, IH. reflexivity.
Qed.

Lemma Forall_exists_Forall2 {A B : Type} (R : A -> B -> Prop) (l : list A) :
  Forall (fun x => exists y, R x y) l -> exists l', Forall2 R l l'.
Proof.
  induction 1 as [|x l [y Hy] _ [l' IH]].
  - exists []. constructor.
  - exists (y :: l'). now constructor.
Qed.

Lemma Forall2_weaken {A B : Type} (R R' : A -> B -> Prop) (l : list A) (l' : list B) :
  (forall x y, R x y -> R' x y) -> Forall2 R l l' -> Forall2 R' l l'.
Proof. intros HR. induction 1; constructor; auto. Qed.

(** ** Methods of the annotation graph *)

Lemma set_edges_id (self : NLPInstance) : set_edges (edges self) self = self.
Proof. destruct self. reflexivity. Qed.

Lemma is_valid_edge_true (self : NLPInstance) (i j : Z) :
  is_valid_edge self i j = true <->
  exists s e, token_map self !! i = Some s /\ token_map self !! j = Some e.
Proof.
  unfold is_valid_edge.
  rewrite andb_true_iff, !bool_decide_eq_true. unfold is_Some.
  split.
  - intros [[s Hs] [e He]]. eauto.
  - intros (s & e & Hs & He). eauto.
Qed.

Lemma is_valid_edge_false (self : NLPInstance) (i j : Z) :
  is_valid_edge self i j = false <->
  token_map self !! i = None \/ token_map self !! j = None.
Proof.
  rewrite <- not_true_iff_false, is_valid_edge_true. split.
  - intros H. destruct (token_map self !! i) as [s|] eqn:Hs; [|auto].
    destruct (token_map self !! j) as [e|] eqn:He; [|auto].
    exfalso. apply H. eauto.
  - intros [H|H] (s & e & Hs & He); congruence.
Qed.

Lemma add_edge_ok (self : NLPInstance) (i j : Z) (l ty : option string)
    (rt : option EdgeRenderType) (d n : option string) (f : bool) (s e : Token) :
  token_map self !! i = Some s -> token_map self !! j = Some e ->
  add_edge i j l ty rt d n f self
  = (Ok tt, set_edges (edges self ++ [Edge_init s e l ty n rt d f]) self).
Proof.
  intros Hs He. unfold add_edge, bind, get.
  assert (Hv : is_valid_edge self i j = true)
    by (apply is_valid_edge_true; eauto).
  rewrite Hv. unfold dict_getitem. rewrite Hs, He. reflexivity.
Qed.

Lemma add_edge_raises (self : NLPInstance) (i j : Z) (l ty : option string)
    (rt : option EdgeRenderType) (d n : option string) (f : bool) :
  is_valid_edge self i j = false ->
  add_edge i j l ty rt d n f self = (Raise KeyError, self).
Proof. intros Hv. unfold add_edge, bind, get. rewrite Hv. reflexivity. Qed.

(** When both positions are keys, [add_edge] returns and changes the edge
    list alone: it appends one edge whose attributes are the two registered
    tokens and the arguments. *)
Lemma add_edge_appends (self : NLPInstance) (i j : Z) (l ty : option string)
    (rt : option EdgeRenderType) (d n : option string) (f : bool) (s e : Token) :
  token_map self !! i = Some s -> token_map self !! j = Some e ->
  exists (self' : NLPInstance) (x : Edge),
    add_edge i j l ty rt d n f self = (Ok tt, self')
    /\ edges self' = edges self ++ [x]
    /\ start x = s /\ end_ x = e /\ label x = l /\ edge_type x = ty
    /\ note x = n /\ render_type x = rt /\ description x = d
    /\ is_final x = f
    /\ tokens self' = tokens self /\ token_map self' = token_map self
    /\ split_points self' = split_points self
    /\ instance_render_type self' = instance_render_type self.
Proof.
  intros Hs He.
  exists (set_edges (edges self ++ [Edge_init s e l ty n rt d f]) self),
         (Edge_init s e l ty n rt d f).
  split; [now apply add_edge_ok|].
  split; [reflexivity|]. repeat split; reflexivity.
Qed.

(** C4: [add_edge] raises [KeyError] and leaves the instance as it was when
    one of the two positions is not a key of [token_map]; when both are, it
    returns, and the edge list of the instance is the old one followed by
    one edge whose start and end are the two registered tokens and whose
    label, type, note, render type, description and is_final are the
    arguments; in either case the tokens and [token_map] stay the same. *)
Theorem add_edge_checks_endpoints (self : NLPInstance) (i j : Z)
    (l ty : option string) (rt : option EdgeRenderType) (d n : option string)
    (f : bool) :
  (token_map self !! i = None \/ token_map self !! j = None ->
   add_edge i j l ty rt d n f self = (Raise KeyError, self))
  /\ (forall s e : Token,
         token_map self !! i = Some s -> token_map self !! j = Some e ->
         exists (self' : NLPInstance) (x : Edge),
           add_edge i j l ty rt d n f self = (Ok tt, self')
           /\ edges self' = edges self ++ [x]
           /\ start x = s /\ end_ x = e /\ label x = l /\ edge_type x = ty
           /\ note x = n /\ render_type x = rt /\ description x = d
           /\ is_final x = f
           /\ tokens self' = tokens self /\ token_map self' = token_map self
           /\ split_points self' = split_points self
           /\ instance_render_type self' = instance_render_type self)
  /\ (forall (r : result unit) (self' : NLPInstance),
         add_edge i j l ty rt d n f self = (r, self') ->
         tokens self' = tokens self /\ token_map self' = token_map self).
Proof.
  split; [|split].
  - intros H. apply add_edge_raises. now apply is_valid_edge_false.
  - intros s e. apply add_edge_appends.
  - intros r self' Hrun.
    destruct (is_valid_edge self i j) eqn:Hv.
    + apply is_valid_edge_true in Hv as (s & e & Hs & He).
      rewrite (add_edge_ok self i j l ty rt d n f s e Hs He) in Hrun.
      inversion Hrun. split; reflexivity.
    + rewrite (add_edge_raises self i j l ty rt d n f Hv) in Hrun.
      inversion Hrun. split; reflexivity.
Qed.

Lemma add_edge_checks_endpoints_witness :
  add_edge 0 99 (Some "l") (Some "dep") (Some dependency) None None true
           (sentence 6)
  = (Raise KeyError, sentence 6)
  /\ exists (self' : NLPInstance) (x : Edge),
       add_edge 0 5 (Some "l") (Some "dep") (Some dependency) None None true
                (sentence 6)
       = (Ok tt, self')
       /\ edges self' = edges (sentence 6) ++ [x]
       /\ start x = Token_init 0 false /\ end_ x = Token_init 5 false
       /\ label x = Some "l" /\ edge_type x = Some "dep"
       /\ note x = None /\ render_type x = Some dependency
       /\ description x = None /\ is_final x = true
       /\ tokens self' = tokens (sentence 6)
       /\ token_map self' = token_map (sentence 6)
       /\ split_points self' = split_points (sentence 6)
       /\ instance_render_type self' = instance_render_type (sentence 6).
Proof.
  split.
  - apply (add_edge_checks_endpoints (sentence 6) 0 99). right. reflexivity.
  - apply (add_edge_checks_endpoints (sentence 6) 0 5); reflexivity.
Defined.

(** *** [add_token] *)

Lemma add_token_omitted (self : NLPInstance) (actual : bool) :
  add_token None actual self
  = (Ok (Token_init (Z.of_nat (length (tokens self))) actual),
     set_token_map
       (<[Z.of_nat (length (tokens self))
          := Token_init (Z.of_nat (length (tokens self))) actual]>
          (token_map self))
       (set_tokens
          (tokens self ++ [Token_init (Z.of_nat (length (tokens self))) actual])
          self)).
Proof. reflexivity. Qed.

Lemma add_token_existing (self : NLPInstance) (i : Z) (actual : bool) (t : Token) :
  token_map self !! i = Some t ->
  add_token (Some i) actual self = (Ok t, self).
Proof.
  intros Ht. unfold add_token, bind, get, dict_getitem. rewrite Ht. reflexivity.
Qed.

(** With an index that is not registered, [self.token_map[index]] raises:
    no token is created. *)
Lemma add_token_absent (self : NLPInstance) (i : Z) (actual : bool) :
  token_map self !! i = None ->
  add_token (Some i) actual self = (Raise KeyError, self).
Proof.
  intros Ht. unfold add_token, bind, get, dict_getitem. rewrite Ht. reflexivity.
Qed.

(** C6: on an instance without tokens, [add_token(3)] raises [KeyError]
    and registers nothing, where the claim has it create the token. *)
Theorem add_token_unregistered_index_raises :
  add_token (Some 3) false (sentence 0) = (Raise KeyError, sentence 0)
  /\ token_map (sentence 0) !! 3 = None.
Proof. split; reflexivity. Qed.

(** *** Loops that add edges *)

Section EdgeLoops.

Context {A : Type}.
Variable body : A -> M unit.
Variable tm : gmap Z Token.
(** [accepted x e']: on an instance whose [token_map] is [tm], [body x]
    appends the edge [e']. *)
Variable accepted : A -> Edge -> Prop.

Hypothesis body_accepted :
  forall (x : A) (e' : Edge) (self : NLPInstance),
    token_map self = tm -> accepted x e' ->
    body x self = (Ok tt, set_edges (edges self ++ [e']) self).

Lemma for_each_appends (l : list A) (es' : list Edge) (self : NLPInstance) :
  token_map self = tm -> Forall2 accepted l es' ->
  for_each l body self = (Ok tt, set_edges (edges self ++ es') self).
Proof.
  intros Htm Hl. revert self Htm.
  induction Hl as [|x e' l es' Hx Hl IH]; intros self Htm; simpl.
  - rewrite app_nil_r, set_edges_id. reflexivity.
  - unfold bind. rewrite (body_accepted x e' self Htm Hx).
    rewrite IH by exact Htm. simpl. rewrite <- app_assoc. reflexivity.
Qed.

End EdgeLoops.

(** *** [merge] *)

Section MergeFacts.

Variable Token_merge : Token -> Token -> M unit.

(** As written, [merge] raises [TypeError] before it changes anything:
    [nlp.tokens(i)] in the first round of the token loop or, when one of
    the instances has no token, [nlp.edges()]. *)
Lemma merge_raises (nlp self : NLPInstance) :
  merge Token_merge nlp self = (Raise TypeError, self).
Proof.
  unfold merge, bind, get.
  destruct (tokens self) as [|t ts] eqn:Hts; simpl.
  - reflexivity.
  - destruct (tokens nlp) as [|u us] eqn:Hus; simpl.
    + reflexivity.
    + unfold bind, get, list_getitem. rewrite Hts. reflexivity.
Qed.

End MergeFacts.

(** C5: this instance has the token 0, the other one the token 0 and the
    edge from 0 to 0.  [merge] raises [TypeError] and leaves this instance
    without an edge: no token is merged and the edge is not added. *)
Theorem merge_raises_on_aligned_instances
    (Token_merge : Token -> Token -> M unit) :
  merge Token_merge (graph 1 [(0, 0)]) (sentence 1)
  = (Raise TypeError, sentence 1)
  /\ tokens (graph 1 [(0, 0)]) = [Token_init 0 false]
  /\ edges (graph 1 [(0, 0)]) = [arc 0 0]
  /\ tokens (sentence 1) = [Token_init 0 false]
  /\ edges (sentence 1) = [].
Proof.
  split; [apply merge_raises|]. repeat split; reflexivity.
Qed.

(** ** The diff *)

Lemma register_tokens_lookup (ts : list Token) (tm : gmap Z Token) (i : Z) (t : Token) :
  register_tokens ts tm !! i = Some t ->
  (In t ts /\ index t = i) \/ tm !! i = Some t.
Proof.
  unfold register_tokens. revert tm.
  induction ts as [|u ts IH]; simpl; intros tm Ht; [auto|].
  apply IH in Ht as [[Hin Hi]|Ht]; [auto|].
  destruct (decide (index u = i)) as [Hu|Hu].
  - subst i. rewrite lookup_insert_eq in Ht. inversion Ht; subst. auto.
  - rewrite lookup_insert_ne in Ht by exact Hu. auto.
Qed.

Lemma register_tokens_keeps (ts : list Token) (tm : gmap Z Token) (i : Z) :
  is_Some (tm !! i) -> is_Some (register_tokens ts tm !! i).
Proof.
  unfold register_tokens. revert tm.
  induction ts as [|u ts IH]; simpl; intros tm Hi; [exact Hi|].
  apply IH. destruct (decide (index u = i)) as [Hu|Hu].
  - subst i. rewrite lookup_insert_eq. eauto.
  - rewrite lookup_insert_ne by exact Hu. exact Hi.
Qed.

Lemma register_tokens_registered (ts : list Token) (tm : gmap Z Token) (i : Z) :
  In i (map index ts) -> is_Some (register_tokens ts tm !! i).
Proof.
  revert tm. induction ts as [|u ts IH]; simpl; intros tm Hi; [easy|].
  destruct Hi as [Hi|Hi].
  - change (is_Some (register_tokens ts (<[index u := u]> tm) !! i)).
    apply register_tokens_keeps. subst i. rewrite lookup_insert_eq. eauto.
  - apply (IH (<[index u := u]> tm) Hi).
Qed.

Lemma for_each_add_split_point (sp : list Z) (self : NLPInstance) :
  for_each sp add_split_point self
  = (Ok tt, set_split_points (split_points self ++ sp) self).
Proof.
  revert self. induction sp as [|p sp IH]; intros self; simpl.
  - rewrite app_nil_r. destruct self. reflexivity.
  - unfold bind, add_split_point at 1, modify. rewrite IH. simpl.
    rewrite <- app_assoc. reflexivity.
Qed.

Lemma add_diff_edge_added (tm : gmap Z Token) (suffix : string) (e e' : Edge)
    (self : NLPInstance) :
  token_map self = tm -> added_as tm suffix e e' ->
  add_diff_edge suffix e self = (Ok tt, set_edges (edges self ++ [e']) self).
Proof.
  intros Htm (t & Ht & Hs & He & ->). subst tm.
  unfold add_diff_edge, bind, str_add. rewrite Ht. unfold ret.
  apply add_edge_ok; assumption.
Qed.

Lemma diffable_added (gold : NLPInstance) (suffix : string) (e : Edge) :
  diffable gold e ->
  exists e', added_as (register_tokens (tokens gold) ∅) suffix e e'.
Proof.
  intros (Ht & Hs & He).
  destruct (edge_type e) as [t|] eqn:Hty; [|destruct Ht as [? [=]]].
  apply (register_tokens_registered _ ∅) in Hs as [s Hs].
  apply (register_tokens_registered _ ∅) in He as [d He].
  exists (Edge_init s d (label e) (Some (t +:+ suffix)) (note e)
                    (render_type e) (description e) true).
  exists t. simpl. auto.
Qed.

Lemma added_retyped (gold : NLPInstance) (suffix : string) (e e' : Edge) :
  added_as (register_tokens (tokens gold) ∅) suffix e e' ->
  retyped gold suffix e e'.
Proof.
  intros (t & Ht & Hs & He & Heq).
  apply register_tokens_lookup in Hs as [[Hs Hsi]|Hs];
    [|rewrite lookup_empty in Hs; discriminate].
  apply register_tokens_lookup in He as [[He Hei]|He];
    [|rewrite lookup_empty in He; discriminate].
  assert (Hty : edge_type e' = Some (t +:+ suffix)) by (rewrite Heq; reflexivity).
  assert (Hl : label e' = label e) by (rewrite Heq; reflexivity).
  assert (Hn : note e' = note e) by (rewrite Heq; reflexivity).
  assert (Hd : description e' = description e) by (rewrite Heq; reflexivity).
  assert (Hr : render_type e' = render_type e) by (rewrite Heq; reflexivity).
  assert (Hf : is_final e' = true) by (rewrite Heq; reflexivity).
  unfold retyped. split; [exists t; auto|]. repeat split; assumption.
Qed.

(** One loop of [nlp_diff] over edges that can all be added. *)
Lemma diff_loop (gold : NLPInstance) (suffix : string) (l : list Edge)
    (self : NLPInstance) :
  token_map self = register_tokens (tokens gold) ∅ ->
  Forall (diffable gold) l ->
  exists es',
    Forall2 (retyped gold suffix) l es'
    /\ for_each l (add_diff_edge suffix) self
       = (Ok tt, set_edges (edges self ++ es') self).
Proof.
  intros Htm Hl.
  destruct (Forall_exists_Forall2
              (added_as (register_tokens (tokens gold) ∅) suffix) l)
    as [es' Hes'].
  { eapply List.Forall_impl; [|exact Hl]. intros e. apply diffable_added. }
  exists es'. split.
  - eapply Forall2_weaken; [|exact Hes']. apply added_retyped.
  - apply (for_each_appends (add_diff_edge suffix)
             (register_tokens (tokens gold) ∅)
             (added_as (register_tokens (tokens gold) ∅) suffix)); trivial.
    intros x e' self' Hself' Hx. eapply add_diff_edge_added; eassumption.
Qed.

Lemma existsb_eqb_In (i : Z) (l : list Z) :
  existsb (Z.eqb i) l = true <-> In i l.
Proof.
  rewrite existsb_exists. split.
  - intros (j & Hj & Hij). apply Z.eqb_eq in Hij. now subst.
  - intros Hi. exists i. split; [exact Hi|apply Z.eqb_refl].
Qed.

Lemma diffableb_true (gold : NLPInstance) (e : Edge) :
  diffableb gold e = true <-> diffable gold e.
Proof.
  unfold diffableb, diffable.
  rewrite !andb_true_iff, bool_decide_eq_true, !existsb_eqb_In. tauto.
Qed.

(** Equal edges can be added to the diff of the same instances. *)
Lemma diffable_Edge_eq (gold : NLPInstance) (a b : Edge) :
  Edge_eq a b = true -> diffable gold a -> diffable gold b.
Proof.
  intros Hab (Ht & Hs & He). apply Edge_eq_spec in Hab as (Hsi & Hei & _ & Hty & _).
  unfold diffable. rewrite <- Hsi, <- Hei, <- Hty. auto.
Qed.

(** A loop of [nlp_diff] that ends without raising has met edges that can
    be added only, and leaves [token_map] as it was. *)
Lemma diff_loop_ok (gold : NLPInstance) (suffix : string) (l : list Edge)
    (self self' : NLPInstance) (u : unit) :
  token_map self = register_tokens (tokens gold) ∅ ->
  for_each l (add_diff_edge suffix) self = (Ok u, self') ->
  Forall (diffable gold) l
  /\ token_map self' = register_tokens (tokens gold) ∅.
Proof.
  revert self. induction l as [|e l IH]; intros self Htm Hrun; simpl in Hrun.
  - inversion Hrun; subst. split; [constructor|exact Htm].
  - unfold bind in Hrun.
    destruct (diffableb gold e) eqn:He.
    + apply diffableb_true in He.
      destruct (diffable_added gold suffix e He) as [e' He'].
      rewrite (add_diff_edge_added _ suffix e e' self Htm He') in Hrun.
      apply IH in Hrun as [Hl Htm']; [|exact Htm].
      split; [constructor; assumption|exact Htm'].
    + exfalso. revert Hrun. unfold add_diff_edge, bind, str_add.
      destruct (edge_type e) as [t|] eqn:Hty; [|discriminate].
      unfold ret.
      destruct (is_valid_edge self (index (start e)) (index (end_ e))) eqn:Hv.
      * apply is_valid_edge_true in Hv as (s & d & Hs & Hd).
        assert (diffable gold e) as Hdiff.
        { unfold diffable. rewrite Hty. rewrite Htm in Hs, Hd.
          apply register_tokens_lookup in Hs as [[Hs Hsi]|Hs];
            [|rewrite lookup_empty in Hs; discriminate].
          apply register_tokens_lookup in Hd as [[Hd Hdi]|Hd];
            [|rewrite lookup_empty in Hd; discriminate].
          split; [eauto|]. rewrite <- Hsi, <- Hdi.
          split; apply in_map; assumption. }
        apply diffableb_true in Hdiff. congruence.
      * rewrite add_edge_raises by exact Hv. discriminate.
Qed.

(** A loop of [nlp_diff] that raises does so at one of its edges: with
    [TypeError] at an edge without a type, with [KeyError] at an edge with
    a type and a position that is not the index of a token of gold. *)
Lemma diff_loop_raise (gold : NLPInstance) (suffix : string) (l : list Edge)
    (self self' : NLPInstance) (exc : PyExc) :
  token_map self = register_tokens (tokens gold) ∅ ->
  for_each l (add_diff_edge suffix) self = (Raise exc, self') ->
  exists e : Edge,
    In e l
    /\ ((exc = TypeError /\ edge_type e = None)
        \/ (exc = KeyError /\ is_Some (edge_type e)
            /\ ~ (In (index (start e)) (map index (tokens gold))
                  /\ In (index (end_ e)) (map index (tokens gold))))).
Proof.
  revert self. induction l as [|e l IH]; intros self Htm Hrun.
  - discriminate Hrun.
  - cbn [for_each] in Hrun. unfold bind in Hrun.
    destruct (edge_type e) as [t|] eqn:Hty.
    + destruct (is_valid_edge self (index (start e)) (index (end_ e))) eqn:Hv.
      * apply is_valid_edge_true in Hv as (s & d & Hs & Hd).
        unfold add_diff_edge, bind, str_add in Hrun. rewrite Hty in Hrun.
        unfold ret in Hrun.
        rewrite (add_edge_ok self _ _ _ _ _ _ _ _ s d Hs Hd) in Hrun.
        apply IH in Hrun as (x & Hx & Hcause); [|exact Htm].
        exists x. split; [now right|exact Hcause].
      * unfold add_diff_edge, bind, str_add in Hrun. rewrite Hty in Hrun.
        unfold ret in Hrun. rewrite add_edge_raises in Hrun by exact Hv.
        injection Hrun as <- _.
        exists e. split; [now left|]. right.
        split; [reflexivity|]. split; [rewrite Hty; eauto|].
        intros [Hs Hd].
        apply (register_tokens_registered _ ∅) in Hs as [s Hs].
        apply (register_tokens_registered _ ∅) in Hd as [d Hd].
        rewrite <- Htm in Hs, Hd.
        assert (is_valid_edge self (index (start e)) (index (end_ e)) = true)
          by (apply is_valid_edge_true; eauto).
        congruence.
    + unfold add_diff_edge, bind, str_add in Hrun. rewrite Hty in Hrun.
      injection Hrun as <- _.
      exists e. split; [now left|]. left. auto.
Qed.

Section DiffFacts.

Variable hash_str : string -> Z.
Variable hash_token : Token -> Z.
Variable hash_int : Z -> Z.

Hypothesis hash_token_eq :
  forall t u : Token, Token_eq t u = true -> hash_token t = hash_token u.

Local Abbreviation same_key := (Edge_same_key hash_str hash_token hash_int).
Local Abbreviation fn := (diff_fn hash_str hash_token hash_int).
Local Abbreviation fp := (diff_fp hash_str hash_token hash_int).
Local Abbreviation matches := (diff_matches hash_str hash_token hash_int).
Local Abbreviation gold_set := (goldIdentities hash_str hash_token hash_int).
Local Abbreviation guess_set := (guessIdentities hash_str hash_token hash_int).

Let key_refl := Edge_same_key_refl hash_str hash_token hash_int hash_token_eq.
Let key_sym := Edge_same_key_sym hash_str hash_token hash_int hash_token_eq.
Let key_trans := Edge_same_key_trans hash_str hash_token hash_int hash_token_eq.

Lemma get_edges_all (self : NLPInstance) :
  get_edges hash_str hash_token hash_int self None
  = set_from_iterable same_key (edges self).
Proof.
  unfold get_edges. f_equal. apply filter_true_id.
  intros e. apply orb_true_r.
Qed.

Lemma get_edges_distinct (self : NLPInstance) (rt : option EdgeRenderType) :
  distinct_keys same_key (get_edges hash_str hash_token hash_int self rt).
Proof. apply set_from_iterable_distinct. exact key_sym. Qed.

Lemma get_edges_In (self : NLPInstance) (e : Edge) :
  In e (get_edges hash_str hash_token hash_int self None) -> In e (edges self).
Proof. rewrite get_edges_all. apply set_from_iterable_In. Qed.

Lemma fn_In (gold guess : NLPInstance) (e : Edge) :
  In e (fn gold guess) -> In e (edges gold).
Proof.
  unfold diff_fn. intros H. apply set_difference_In in H as [H _].
  now apply get_edges_In.
Qed.

Lemma fp_In (gold guess : NLPInstance) (e : Edge) :
  In e (fp gold guess) -> In e (edges guess).
Proof.
  unfold diff_fp. intros H. apply set_difference_In in H as [H _].
  now apply get_edges_In.
Qed.

Lemma matches_In (gold guess : NLPInstance) (e : Edge) :
  In e (matches gold guess) -> In e (edges gold) \/ In e (edges guess).
Proof.
  unfold diff_matches, set_intersection.
  destruct (length _ <? length _)%nat; intros H;
    apply filter_In in H as [H _]; apply get_edges_In in H; auto.
Qed.

(** C2: the three sets of the diff split the two edge sets:
    [|Match| + |FN|] is the size of the gold set, [|Match| + |FP|] the size
    of the guess set, and no edge of one of the three sets equals an edge of
    another.  An edge list without equal edges is its own edge set. *)
Theorem diff_partition (gold guess : NLPInstance) :
  (length (matches gold guess) + length (fn gold guess)
   = length (gold_set gold))%nat
  /\ (length (matches gold guess) + length (fp gold guess)
      = length (guess_set guess))%nat
  /\ (forall m x, In m (matches gold guess) -> In x (fn gold guess) ->
                  Edge_eq m x = false)
  /\ (forall m y, In m (matches gold guess) -> In y (fp gold guess) ->
                  Edge_eq m y = false)
  /\ (forall x y, In x (fn gold guess) -> In y (fp gold guess) ->
                  Edge_eq x y = false)
  /\ (distinct_keys Edge_eq (edges gold) -> gold_set gold = edges gold)
  /\ (distinct_keys Edge_eq (edges guess) -> guess_set guess = edges guess).
Proof.
  pose proof (get_edges_distinct gold None) as HdG.
  pose proof (get_edges_distinct guess None) as HdS.
  fold (gold_set gold) in HdG. fold (guess_set guess) in HdS.
  destruct (set_intersection_length same_key key_sym key_trans
              (gold_set gold) (guess_set guess) HdG HdS) as [HmG HmS].
  fold (matches gold guess) in HmG, HmS.
  assert (Hdisj : forall (s : list Edge) (a b : Edge),
             set_contains same_key s a = true ->
             set_contains same_key s b = false -> Edge_eq a b = false).
  { intros s a b Ha Hb. apply not_true_iff_false. intros Hab.
    rewrite <- (Edge_same_key_eq hash_str hash_token hash_int hash_token_eq) in Hab.
    rewrite (set_contains_same_key same_key key_sym key_trans s a b Hab) in Ha.
    congruence. }
  repeat split.
  - rewrite HmG. unfold diff_fn, set_difference. apply filter_split_length.
  - rewrite HmS. unfold diff_fp, set_difference. apply filter_split_length.
  - intros m x Hm Hx. apply set_intersection_In in Hm as [_ Hm]; [|exact key_refl].
    apply set_difference_In in Hx as [_ Hx]. eapply Hdisj; eauto.
  - intros m y Hm Hy. apply set_intersection_In in Hm as [Hm _]; [|exact key_refl].
    apply set_difference_In in Hy as [_ Hy]. eapply Hdisj; eauto.
  - intros x y Hx Hy.
    apply set_difference_In in Hx as [_ Hx].
    apply set_difference_In in Hy as [Hy _].
    rewrite Edge_eq_sym. eapply (Hdisj (guess_set guess)); [|exact Hx].
    apply set_contains_In; [exact key_refl|exact Hy].
  - intros Hd. unfold goldIdentities. rewrite get_edges_all.
    apply set_from_iterable_id; [exact key_sym|].
    apply (distinct_keys_ext Edge_eq); [|exact Hd].
    intros a b. symmetry. now apply Edge_same_key_eq.
  - intros Hd. unfold guessIdentities. rewrite get_edges_all.
    apply set_from_iterable_id; [exact key_sym|].
    apply (distinct_keys_ext Edge_eq); [|exact Hd].
    intros a b. symmetry. now apply Edge_same_key_eq.
Qed.

(** The run of [nlp_diff] on edges that can all be added. *)
Lemma nlp_diff_edges (gold guess : NLPInstance) :
  (forall e, In e (edges gold ++ edges guess) -> diffable gold e) ->
  exists (diff : NLPInstance) (fn' fp' matches' : list Edge),
    nlp_diff hash_str hash_token hash_int gold guess = Ok diff
    /\ tokens diff = tokens gold
    /\ split_points diff = split_points gold
    /\ instance_render_type diff = instance_render_type gold
    /\ edges diff = fn' ++ fp' ++ matches'
    /\ Forall2 (retyped gold ":FN") (fn gold guess) fn'
    /\ Forall2 (retyped gold ":FP") (fp gold guess) fp'
    /\ Forall2 (retyped gold ":Match") (matches gold guess) matches'.
Proof.
  intros Hall.
  assert (Hfn : Forall (diffable gold) (fn gold guess)).
  { apply List.Forall_forall. intros e He. apply Hall, in_or_app.
    left. eapply fn_In; eauto. }
  assert (Hfp : Forall (diffable gold) (fp gold guess)).
  { apply List.Forall_forall. intros e He. apply Hall, in_or_app.
    right. eapply fp_In; eauto. }
  assert (Hm : Forall (diffable gold) (matches gold guess)).
  { apply List.Forall_forall. intros e He. apply Hall, in_or_app.
    eapply matches_In; eauto. }
  unfold nlp_diff, nlp_diff_body, bind.
  unfold modify at 1. rewrite for_each_add_split_point.
  unfold add_tokens, modify. cbn [fst snd].
  set (d3 := set_token_map _ _).
  assert (Htm : token_map d3 = register_tokens (tokens gold) ∅) by reflexivity.
  destruct (diff_loop gold ":FN" _ d3 Htm Hfn) as (fn' & Hfn' & ->).
  destruct (diff_loop gold ":FP" _ (set_edges (edges d3 ++ fn') d3) Htm Hfp)
    as (fp' & Hfp' & ->).
  destruct (diff_loop gold ":Match" _
              (set_edges (edges (set_edges (edges d3 ++ fn') d3) ++ fp')
                         (set_edges (edges d3 ++ fn') d3)) Htm Hm)
    as (m' & Hm' & ->).
  eexists _, fn', fp', m'. split; [reflexivity|].
  simpl. rewrite <- app_assoc. auto 10.
Qed.


Lemma nlp_diff_total (gold guess : NLPInstance) :
  (forall e, In e (edges gold ++ edges guess) -> diffable gold e) ->
  exists diff, nlp_diff hash_str hash_token hash_int gold guess = Ok diff.
Proof.
  intros Hall. destruct (nlp_diff_edges gold guess Hall) as (diff & _ & _ & _ & Hrun & _).
  eauto.
Qed.

(** Every edge of gold and guess has an equal edge in one of the three
    sets. *)
Lemma diff_sets_cover (gold guess : NLPInstance) (e : Edge) :
  In e (edges gold ++ edges guess) ->
  exists r, In r (fn gold guess ++ fp gold guess ++ matches gold guess)
            /\ Edge_eq r e = true.
Proof.
  assert (Hrep : forall (inst : NLPInstance), In e (edges inst) ->
             exists r, In r (get_edges hash_str hash_token hash_int inst None)
                       /\ same_key r e = true).
  { intros inst He. apply set_contains_true.
    rewrite get_edges_all, set_from_iterable_contains by assumption.
    now apply set_contains_In. }
  assert (Hmatch : forall g s : Edge,
             In g (gold_set gold) -> In s (guess_set guess) ->
             same_key g s = true ->
             exists m, In m (matches gold guess)
                       /\ (same_key m g = true \/ same_key m s = true)).
  { intros g s Hg Hs Hgs. unfold diff_matches, set_intersection.
    destruct (length _ <? length _)%nat.
    - exists g. split; [|left; apply key_refl].
      apply filter_In. split; [exact Hg|].
      apply set_contains_true. exists s. split; [exact Hs|].
      now rewrite key_sym.
    - exists s. split; [|right; apply key_refl].
      apply filter_In. split; [exact Hs|].
      apply set_contains_true. eauto. }
  intros He. apply in_app_or in He as [He|He].
  - destruct (Hrep gold He) as (g & Hg & Hge).
    destruct (set_contains same_key (guess_set guess) g) eqn:Hc.
    + apply set_contains_true in Hc as (s & Hs & Hsg).
      rewrite key_sym in Hsg.
      destruct (Hmatch g s Hg Hs Hsg) as (m & Hm & Hmk).
      exists m. split; [apply in_or_app; right; apply in_or_app; now right|].
      rewrite <- (Edge_same_key_eq hash_str hash_token hash_int hash_token_eq).
      destruct Hmk as [Hmk|Hmk].
      * eapply key_trans; eauto.
      * rewrite key_sym in Hsg. eapply key_trans; [exact Hmk|].
        eapply key_trans; eauto.
    + exists g. split.
      * apply in_or_app. left. apply set_difference_In. auto.
      * now rewrite <- (Edge_same_key_eq hash_str hash_token hash_int hash_token_eq).
  - destruct (Hrep guess He) as (s & Hs & Hse).
    destruct (set_contains same_key (gold_set gold) s) eqn:Hc.
    + apply set_contains_true in Hc as (g & Hg & Hgs).
      destruct (Hmatch g s Hg Hs Hgs) as (m & Hm & Hmk).
      exists m. split; [apply in_or_app; right; apply in_or_app; now right|].
      rewrite <- (Edge_same_key_eq hash_str hash_token hash_int hash_token_eq).
      destruct Hmk as [Hmk|Hmk].
      * eapply key_trans; [exact Hmk|]. eapply key_trans; eauto.
      * eapply key_trans; eauto.
    + exists s. split.
      * apply in_or_app. right. apply in_or_app. left.
        apply set_difference_In. auto.
      * now rewrite <- (Edge_same_key_eq hash_str hash_token hash_int hash_token_eq).
Qed.

(** [nlp_diff] returns an instance exactly when every edge of gold and
    guess can be added; otherwise it raises. *)
Lemma nlp_diff_returns_iff (gold guess : NLPInstance) :
  (exists diff, nlp_diff hash_str hash_token hash_int gold guess = Ok diff)
  <-> (forall e, In e (edges gold ++ edges guess) -> diffable gold e).
Proof.
  split.
  - intros [diff Hrun] e He.
    destruct (diff_sets_cover gold guess e He) as (r & Hr & Hre).
    apply (diffable_Edge_eq gold r e Hre).
    revert Hrun. unfold nlp_diff, nlp_diff_body, bind.
    unfold modify at 1. rewrite for_each_add_split_point.
    unfold add_tokens, modify. cbn [fst snd].
    set (d3 := set_token_map _ _).
    assert (Htm : token_map d3 = register_tokens (tokens gold) ∅) by reflexivity.
    destruct (for_each (fn gold guess) _ d3) as [[u1|exc] d4] eqn:H1;
      [|discriminate].
    apply (diff_loop_ok gold) in H1 as [Hfn Htm4]; [|exact Htm].
    destruct (for_each (fp gold guess) _ d4) as [[u2|exc] d5] eqn:H2;
      [|discriminate].
    apply (diff_loop_ok gold) in H2 as [Hfp Htm5]; [|exact Htm4].
    destruct (for_each (matches gold guess) _ d5) as [[u3|exc] d6] eqn:H3;
      [|discriminate].
    apply (diff_loop_ok gold) in H3 as [Hm _]; [|exact Htm5].
    intros _. rewrite List.Forall_forall in Hfn, Hfp, Hm.
    apply in_app_or in Hr as [Hr|Hr]; [auto|].
    apply in_app_or in Hr as [Hr|Hr]; auto.
  - intros Hall.
    destruct (nlp_diff_total gold guess Hall) as (diff & Hrun). eauto.
Qed.

(** An exception of [nlp_diff] comes from one of the edges of gold and
    guess. *)
Lemma nlp_diff_raise_cause (gold guess : NLPInstance) (exc : PyExc) :
  nlp_diff hash_str hash_token hash_int gold guess = Raise exc ->
  exists e : Edge,
    In e (edges gold ++ edges guess)
    /\ ((exc = TypeError /\ edge_type e = None)
        \/ (exc = KeyError /\ is_Some (edge_type e)
            /\ ~ (In (index (start e)) (map index (tokens gold))
                  /\ In (index (end_ e)) (map index (tokens gold))))).
Proof.
  unfold nlp_diff, nlp_diff_body, bind.
  unfold modify at 1. rewrite for_each_add_split_point.
  unfold add_tokens, modify. cbn [fst snd].
  set (d3 := set_token_map _ _).
  assert (Htm : token_map d3 = register_tokens (tokens gold) ∅) by reflexivity.
  destruct (for_each (fn gold guess) _ d3) as [[u1|x1] d4] eqn:H1.
  - apply (diff_loop_ok gold) in H1 as [_ Htm4]; [|exact Htm].
    destruct (for_each (fp gold guess) _ d4) as [[u2|x2] d5] eqn:H2.
    + apply (diff_loop_ok gold) in H2 as [_ Htm5]; [|exact Htm4].
      destruct (for_each (matches gold guess) _ d5) as [[u3|x3] d6] eqn:H3;
        [discriminate|].
      intros [= <-].
      apply (diff_loop_raise gold) in H3 as (e & He & Hcause); [|exact Htm5].
      exists e. split; [|exact Hcause].
      apply in_or_app. eapply matches_In; eauto.
    + intros [= <-].
      apply (diff_loop_raise gold) in H2 as (e & He & Hcause); [|exact Htm4].
      exists e. split; [|exact Hcause].
      apply in_or_app. right. eapply fp_In; eauto.
  - intros [= <-].
    apply (diff_loop_raise gold) in H1 as (e & He & Hcause); [|exact Htm].
    exists e. split; [|exact Hcause].
    apply in_or_app. left. eapply fn_In; eauto.
Qed.

(** C1 (amended): [nlp_diff] returns an instance exactly when every edge
    of gold and guess has a string type and both positions among the
    indices of gold's tokens.  The instance returned has gold's tokens,
    split points and render type, and its edges are, one for one, the
    edges of FN, FP and Match with [":FN"], [":FP"] and [":Match"] appended
    to the type, between gold's tokens at the same positions, and with
    label, note, description and render type unchanged.  Otherwise
    [nlp_diff] raises [KeyError] or [TypeError] and nothing else:
    [TypeError] only when an edge of gold or guess has no type, [KeyError]
    only when an edge with a type has a position that is not the index of
    a token of gold. *)
Theorem nlp_diff_retyped_union (gold guess : NLPInstance) :
  ((exists diff, nlp_diff hash_str hash_token hash_int gold guess = Ok diff)
   <-> (forall e, In e (edges gold ++ edges guess) -> diffable gold e))
  /\ (forall diff : NLPInstance,
         nlp_diff hash_str hash_token hash_int gold guess = Ok diff ->
         tokens diff = tokens gold
         /\ split_points diff = split_points gold
         /\ instance_render_type diff = instance_render_type gold
         /\ exists fn' fp' matches' : list Edge,
              edges diff = fn' ++ fp' ++ matches'
              /\ Forall2 (retyped gold ":FN") (fn gold guess) fn'
              /\ Forall2 (retyped gold ":FP") (fp gold guess) fp'
              /\ Forall2 (retyped gold ":Match") (matches gold guess) matches')
  /\ ((exists e, In e (edges gold ++ edges guess) /\ ~ diffable gold e) ->
      nlp_diff hash_str hash_token hash_int gold guess = Raise KeyError
      \/ nlp_diff hash_str hash_token hash_int gold guess = Raise TypeError)
  /\ (forall exc : PyExc,
         nlp_diff hash_str hash_token hash_int gold guess = Raise exc ->
         exists e : Edge,
           In e (edges gold ++ edges guess)
           /\ ((exc = TypeError /\ edge_type e = None)
               \/ (exc = KeyError /\ is_Some (edge_type e)
                   /\ ~ (In (index (start e)) (map index (tokens gold))
                         /\ In (index (end_ e)) (map index (tokens gold)))))).
Proof.
  split; [apply nlp_diff_returns_iff|].
  split; [|split; [|apply nlp_diff_raise_cause]].
  - intros diff Hrun.
    assert (Hall : forall e, In e (edges gold ++ edges guess) -> diffable gold e).
    { apply nlp_diff_returns_iff. eauto. }
    destruct (nlp_diff_edges gold guess Hall)
      as (diff' & fn' & fp' & m' & Hrun' & Ht & Hsp & Hrt & He & Hfn & Hfp & Hm).
    rewrite Hrun in Hrun'. inversion Hrun'; subst diff'.
    repeat split; trivial. exists fn', fp', m'. auto.
  - intros (e & He & Hbad).
    destruct (nlp_diff hash_str hash_token hash_int gold guess)
      as [diff|exc] eqn:Hrun.
    + exfalso. apply Hbad.
      apply (proj1 (nlp_diff_returns_iff gold guess)); eauto.
    + apply nlp_diff_raise_cause in Hrun as (x & _ & [[-> _]|[-> _]]); auto.
Qed.

End DiffFacts.

(** *** Concrete runs *)

Lemma diff_partition_witness :
  Nat.add
    (length (diff_matches hash_str_length hash_token_index hash_int_id
               (graph 3 [(0, 1); (1, 2); (0, 1)]) (graph 3 [(0, 1); (2, 1)])))
    (length (diff_fn hash_str_length hash_token_index hash_int_id
               (graph 3 [(0, 1); (1, 2); (0, 1)]) (graph 3 [(0, 1); (2, 1)])))
  = length (goldIdentities hash_str_length hash_token_index hash_int_id
              (graph 3 [(0, 1); (1, 2); (0, 1)])).
Proof.
  apply (diff_partition hash_str_length hash_token_index hash_int_id
           hash_token_index_compat).
Defined.

Lemma nlp_diff_retyped_union_witness :
  (exists diff : NLPInstance,
      nlp_diff hash_str_length hash_token_index hash_int_id
               (graph 3 [(0, 1); (1, 2)]) (graph 3 [(0, 1); (2, 1)]) = Ok diff
      /\ exists fn' fp' matches' : list Edge,
           edges diff = fn' ++ fp' ++ matches'
           /\ Forall2 (retyped (graph 3 [(0, 1); (1, 2)]) ":FN")
                (diff_fn hash_str_length hash_token_index hash_int_id
                   (graph 3 [(0, 1); (1, 2)]) (graph 3 [(0, 1); (2, 1)])) fn'
           /\ Forall2 (retyped (graph 3 [(0, 1); (1, 2)]) ":FP")
                (diff_fp hash_str_length hash_token_index hash_int_id
                   (graph 3 [(0, 1); (1, 2)]) (graph 3 [(0, 1); (2, 1)])) fp'
           /\ Forall2 (retyped (graph 3 [(0, 1); (1, 2)]) ":Match")
                (diff_matches hash_str_length hash_token_index hash_int_id
                   (graph 3 [(0, 1); (1, 2)]) (graph 3 [(0, 1); (2, 1)]))
                matches')
  /\ (nlp_diff hash_str_length hash_token_index hash_int_id
               (sentence 1) (graph 2 [(0, 1)]) = Raise KeyError
      \/ nlp_diff hash_str_length hash_token_index hash_int_id
                  (sentence 1) (graph 2 [(0, 1)]) = Raise TypeError).
Proof.
  split.
  - destruct (nlp_diff_retyped_union hash_str_length hash_token_index
                hash_int_id hash_token_index_compat
                (graph 3 [(0, 1); (1, 2)]) (graph 3 [(0, 1); (2, 1)]))
      as (Hreturns & Hedges & _).
    destruct (proj2 Hreturns) as [diff Hrun].
    { intros e He. apply diffableb_true. revert e He.
      apply forallb_forall. vm_compute. reflexivity. }
    exists diff. split; [exact Hrun|]. apply (Hedges diff Hrun).
  - destruct (nlp_diff_retyped_union hash_str_length hash_token_index
                hash_int_id hash_token_index_compat
                (sentence 1) (graph 2 [(0, 1)]))
      as (_ & _ & Hraises & _).
    apply Hraises. exists (arc 0 1). split.
    + vm_compute. left. reflexivity.
    + intros Hd. apply diffableb_true in Hd. vm_compute in Hd. discriminate Hd.
Defined.

(** C1, as stated, fails: a guess edge that ends at a position gold has no
    token for makes [nlp_diff] raise [KeyError], and an edge without a type
    makes it raise [TypeError]; no instance is returned. *)
Lemma nlp_diff_raises_examples :
  nlp_diff hash_str_length hash_token_index hash_int_id
           (sentence 1) (graph 2 [(0, 1)]) = Raise KeyError
  /\ nlp_diff hash_str_length hash_token_index hash_int_id
              untyped_graph untyped_graph = Raise TypeError.
Proof. split; vm_compute; reflexivity. Qed.

(** ** Further properties of [Edge] *)

Lemma covers_exactly_spec (a b : Edge) :
  covers_exactly a b = true <->
  get_min_index b = get_min_index a /\ get_max_index a = get_max_index b.
Proof.
  unfold covers_exactly. rewrite !andb_true_iff, !Z.eqb_eq, Z.leb_le.
  pose proof (min_le_max a). tauto.
Qed.

Lemma covers_semi_spec (a b : Edge) :
  covers_semi a b = true <->
  (get_min_index a < get_min_index b /\ get_max_index b = get_max_index a)
  \/ (get_min_index a = get_min_index b /\ get_max_index b < get_max_index a).
Proof.
  unfold covers_semi.
  rewrite orb_true_iff, !andb_true_iff, !Z.ltb_lt, !Z.eqb_eq, !Z.leb_le.
  pose proof (min_le_max b). tauto.
Qed.

Lemma strictly_covers_spec (a b : Edge) :
  strictly_covers a b = true <->
  (get_min_index a < get_min_index b /\ get_max_index b <= get_max_index a)
  \/ (get_min_index a <= get_min_index b /\ get_max_index b < get_max_index a).
Proof.
  unfold strictly_covers.
  rewrite orb_true_iff, !andb_true_iff, !Z.ltb_lt, !Z.leb_le.
  pose proof (min_le_max b). tauto.
Qed.

Ltac by_spec :=
  repeat match goal with
  | H : covers _ _ = true |- _ => apply covers_spec in H
  | H : covers_exactly _ _ = true |- _ => apply covers_exactly_spec in H
  | H : covers_semi _ _ = true |- _ => apply covers_semi_spec in H
  | H : strictly_covers _ _ = true |- _ => apply strictly_covers_spec in H
  | H : crosses _ _ = true |- _ => apply crosses_spec in H
  | H : overlaps _ _ = true |- _ => apply overlaps_spec in H
  | |- covers _ _ = true => apply covers_spec
  | |- covers_exactly _ _ = true => apply covers_exactly_spec
  | |- covers_semi _ _ = true => apply covers_semi_spec
  | |- strictly_covers _ _ = true => apply strictly_covers_spec
  | |- crosses _ _ = true => apply crosses_spec
  | |- overlaps _ _ = true => apply overlaps_spec
  | |- _ = false => apply not_true_is_false; intro
  end.

(** X1: when the range of [b] lies within the range of [a], exactly one of
    [covers], [covers_semi] and [covers_exactly] holds of [a] and [b], and
    none of them holds otherwise; [strictly_covers] is [covers] or
    [covers_semi]. *)
Theorem containment_cases (a b : Edge) :
  (covers a b || covers_semi a b || covers_exactly a b = true <->
   get_min_index a <= get_min_index b /\ get_max_index b <= get_max_index a)
  /\ covers a b && covers_semi a b = false
  /\ covers a b && covers_exactly a b = false
  /\ covers_semi a b && covers_exactly a b = false
  /\ strictly_covers a b = covers a b || covers_semi a b.
Proof.
  split; [|split; [|split; [|split]]].
  - rewrite !orb_true_iff, covers_spec, covers_semi_spec, covers_exactly_spec.
    pose proof (min_le_max b). lia.
  - apply not_true_is_false. rewrite andb_true_iff, covers_spec, covers_semi_spec. lia.
  - apply not_true_is_false. rewrite andb_true_iff, covers_spec, covers_exactly_spec. lia.
  - apply not_true_is_false.
    rewrite andb_true_iff, covers_semi_spec, covers_exactly_spec. lia.
  - apply eq_true_iff_eq.
    rewrite orb_true_iff, strictly_covers_spec, covers_spec, covers_semi_spec.
    pose proof (min_le_max b). lia.
Qed.

(** X2: [covers_exactly] is an equivalence relation on edges, and
    [strictly_covers] is a strict partial order that respects it. *)
Theorem covers_exactly_equivalence_strictly_covers_order :
  (forall a : Edge, covers_exactly a a = true)
  /\ (forall a b : Edge, covers_exactly a b = covers_exactly b a)
  /\ (forall a b c : Edge,
         covers_exactly a b = true -> covers_exactly b c = true ->
         covers_exactly a c = true)
  /\ (forall a : Edge, strictly_covers a a = false)
  /\ (forall a b : Edge, strictly_covers a b = true -> strictly_covers b a = false)
  /\ (forall a b c : Edge,
         strictly_covers a b = true -> strictly_covers b c = true ->
         strictly_covers a c = true)
  /\ (forall a a' b : Edge,
         covers_exactly a a' = true -> strictly_covers a b = strictly_covers a' b)
  /\ (forall a b b' : Edge,
         covers_exactly b b' = true -> strictly_covers a b = strictly_covers a b').
Proof.
  repeat split.
  - intros a. by_spec. lia.
  - intros a b. apply eq_true_iff_eq. rewrite !covers_exactly_spec. lia.
  - intros a b c Hab Hbc. by_spec. lia.
  - intros a. by_spec. lia.
  - intros a b Hab. by_spec. lia.
  - intros a b c Hab Hbc. by_spec. lia.
  - intros a a' b Ha. apply eq_true_iff_eq.
    rewrite !strictly_covers_spec. by_spec. lia.
  - intros a b b' Hb. apply eq_true_iff_eq.
    rewrite !strictly_covers_spec. by_spec. lia.
Qed.

Lemma covers_exactly_equivalence_strictly_covers_order_witness :
  covers_exactly (arc 1 4) (arc 4 1) = true
  /\ covers_exactly (arc 4 1) (arc 1 4) = true
  /\ strictly_covers (arc 0 5) (arc 1 4) = true
  /\ strictly_covers (arc 0 5) (arc 4 1) = true
  /\ strictly_covers (arc 1 4) (arc 0 5) = false.
Proof.
  destruct covers_exactly_equivalence_strictly_covers_order
    as (_ & Hsym & _ & _ & Hasym & _ & _ & Hcong).
  assert (Hex : covers_exactly (arc 1 4) (arc 4 1) = true) by reflexivity.
  assert (Hsc : strictly_covers (arc 0 5) (arc 1 4) = true) by reflexivity.
  split; [exact Hex|]. split; [rewrite <- Hsym; exact Hex|].
  split; [exact Hsc|]. split; [rewrite <- (Hcong _ _ _ Hex); exact Hsc|].
  exact (Hasym _ _ Hsc).
Defined.

Lemma Edge_len_spec (e : Edge) : Edge_len e = get_max_index e - get_min_index e.
Proof. unfold Edge_len, get_max_index, get_min_index. lia. Qed.

(** X3: the length of an edge is the width of its range and never
    negative; an edge strictly covered by another is shorter, an edge
    covered by another is shorter by two or more, and edges that cover each
    other exactly have the same length. *)
Theorem Edge_len_containment (a b : Edge) :
  Edge_len a = get_max_index a - get_min_index a
  /\ 0 <= Edge_len a
  /\ (strictly_covers a b = true -> Edge_len b < Edge_len a)
  /\ (covers a b = true -> Edge_len b + 2 <= Edge_len a)
  /\ (covers_exactly a b = true -> Edge_len a = Edge_len b).
Proof.
  rewrite !Edge_len_spec. pose proof (min_le_max a).
  repeat split; trivial; try lia; intros Hab; by_spec; lia.
Qed.

Lemma Edge_len_containment_witness :
  Edge_len (arc 4 1) < Edge_len (arc 0 5)
  /\ Edge_len (arc 4 1) + 2 <= Edge_len (arc 0 5).
Proof.
  destruct (Edge_len_containment (arc 0 5) (arc 4 1)) as (_ & _ & Hs & Hc & _).
  split; [apply Hs|apply Hc]; reflexivity.
Defined.

(** X4: edges that cross do not contain one another in either direction,
    and [overlaps] holds of them in one direction and not in the other. *)
Theorem crosses_excludes_containment (a b : Edge) :
  crosses a b = true ->
  strictly_covers a b = false /\ strictly_covers b a = false
  /\ covers_exactly a b = false
  /\ overlaps a b = negb (overlaps b a).
Proof.
  intros Hc. apply crosses_spec in Hc.
  repeat split; try (by_spec; lia).
  destruct (overlaps b a) eqn:Hba; simpl.
  - by_spec. lia.
  - apply not_true_iff_false in Hba. rewrite overlaps_spec in Hba.
    by_spec. lia.
Qed.

Lemma crosses_excludes_containment_witness :
  strictly_covers (arc 0 2) (arc 1 3) = false
  /\ strictly_covers (arc 1 3) (arc 0 2) = false
  /\ covers_exactly (arc 0 2) (arc 1 3) = false
  /\ overlaps (arc 0 2) (arc 1 3) = negb (overlaps (arc 1 3) (arc 0 2)).
Proof. apply (crosses_excludes_containment (arc 0 2) (arc 1 3)). reflexivity. Defined.

(** X5: [left_of] holds when the greater position of the edge is at or
    before the token, [right_of] when the smaller position is at or after
    it; both hold only of an edge that starts and ends at the token's
    position. *)
Theorem left_of_right_of_bounds (e : Edge) (t : Token) :
  (left_of e t = true <-> get_max_index e <= index t)
  /\ (right_of e t = true <-> index t <= get_min_index e)
  /\ (left_of e t && right_of e t = true <->
      index (start e) = index t /\ index (end_ e) = index t).
Proof.
  unfold left_of, right_of, get_max_index, get_min_index.
  rewrite !andb_true_iff, !Z.leb_le, !Z.geb_le. lia.
Qed.

(** X6: [Edge.__eq__] is an equivalence relation, and equal edges have the
    same range: every interval relation gives the same answer on them. *)
Theorem Edge_eq_equivalence_same_range :
  (forall a : Edge, Edge_eq a a = true)
  /\ (forall a b : Edge, Edge_eq a b = Edge_eq b a)
  /\ (forall a b c : Edge,
         Edge_eq a b = true -> Edge_eq b c = true -> Edge_eq a c = true)
  /\ (forall a b c : Edge,
         Edge_eq a b = true ->
         get_min_index a = get_min_index b /\ get_max_index a = get_max_index b
         /\ Edge_len a = Edge_len b
         /\ covers a c = covers b c /\ covers c a = covers c b
         /\ crosses a c = crosses b c
         /\ overlaps a c = overlaps b c /\ overlaps c a = overlaps c b
         /\ strictly_covers a c = strictly_covers b c
         /\ strictly_covers c a = strictly_covers c b).
Proof.
  split; [exact Edge_eq_refl|]. split; [exact Edge_eq_sym|].
  split; [exact Edge_eq_trans|].
  intros a b c Hab. apply Edge_eq_spec in Hab as (Hs & He & _).
  assert (Hmin : get_min_index a = get_min_index b)
    by (unfold get_min_index; now rewrite Hs, He).
  assert (Hmax : get_max_index a = get_max_index b)
    by (unfold get_max_index; now rewrite Hs, He).
  split; [exact Hmin|]. split; [exact Hmax|].
  split; [unfold Edge_len; now rewrite Hs, He|].
  unfold covers, crosses, overlaps, strictly_covers.
  rewrite Hmin, Hmax. repeat split; reflexivity.
Qed.

Lemma Edge_eq_equivalence_same_range_witness :
  covers (arc 0 5) (arc 1 4) = covers (arc_described 0 5 "d" false) (arc 1 4).
Proof.
  destruct Edge_eq_equivalence_same_range as (_ & _ & _ & Hsame).
  apply (Hsame (arc 0 5) (arc_described 0 5 "d" false) (arc 1 4)).
  reflexivity.
Defined.

(** ** Types with a qualifier, and the order of edges *)

Lemma if_not_found {A : Type} (x : Z) (u v : A) :
  x <> -1 -> (if x =? -1 then u else v) = v.
Proof. intros Hx. apply Z.eqb_neq in Hx. now rewrite Hx. Qed.

Lemma str_find_range (c : Ascii.ascii) (s : string) :
  -1 <= str_find c s < Z.of_nat (String.length s) \/ (str_find c s = -1).
Proof.
  induction s as [|a s IH]; simpl; [right; reflexivity|].
  destruct (Ascii.eqb a c); [left; lia|].
  destruct (str_find c s =? -1) eqn:Hi; [right; reflexivity|].
  apply Z.eqb_neq in Hi. left. lia.
Qed.

Lemma str_find_lower (c : Ascii.ascii) (s : string) : -1 <= str_find c s.
Proof. destruct (str_find_range c s); lia. Qed.

Lemma str_find_upper (c : Ascii.ascii) (s : string) :
  str_find c s < Z.of_nat (String.length s) \/ s = EmptyString.
Proof.
  destruct s as [|a s]; [right; reflexivity|]. left.
  destruct (str_find_range c (String a s)) as [H|H]; [lia|].
  rewrite H. simpl. lia.
Qed.

(** A string with a [c] is what comes before the first [c], the [c], and
    what comes after it. *)
Lemma str_find_split (c : Ascii.ascii) (s : string) :
  0 <= str_find c s ->
  s = str_take (Z.to_nat (str_find c s)) s
      +:+ String c (str_drop (S (Z.to_nat (str_find c s))) s)
  /\ str_find c (str_take (Z.to_nat (str_find c s)) s) = -1.
Proof.
  induction s as [|a s IH]; simpl; [lia|].
  destruct (Ascii.eqb a c) eqn:Hac.
  - apply Ascii.eqb_eq in Hac. subst a. intros _. simpl. auto.
  - destruct (str_find c s =? -1) eqn:Hi; [lia|].
    apply Z.eqb_neq in Hi. pose proof (str_find_lower c s) as Hlo. intros _.
    destruct IH as [IH1 IH2]; [lia|].
    replace (Z.to_nat (str_find c s + 1)) with (S (Z.to_nat (str_find c s))) by lia.
    set (n := Z.to_nat (str_find c s)) in *.
    change (str_take (S n) (String a s)) with (String a (str_take n s)).
    change (str_drop (S (S n)) (String a s)) with (str_drop (S n) s).
    split.
    + change (String a s = String a (str_take n s +:+ String c (str_drop (S n) s))).
      f_equal. exact IH1.
    + change (str_find c (String a (str_take n s)))
        with (if Ascii.eqb a c then 0
              else let i := str_find c (str_take n s) in
                   if i =? -1 then -1 else i + 1).
      rewrite Hac, IH2. reflexivity.
Qed.

Lemma str_find_app (c : Ascii.ascii) (a b : string) :
  str_find c (a +:+ b)
  = if str_find c a =? -1
    then if str_find c b =? -1 then -1
         else Z.of_nat (String.length a) + str_find c b
    else str_find c a.
Proof.
  assert (Hne : forall (x u v : Z), x <> -1 -> (if x =? -1 then u else v) = v).
  { intros x u v Hx. apply Z.eqb_neq in Hx. now rewrite Hx. }
  induction a as [|x a IH].
  - change (EmptyString +:+ b) with b. simpl.
    destruct (str_find c b =? -1) eqn:Hb; [now apply Z.eqb_eq in Hb|reflexivity].
  - change (String x a +:+ b) with (String x (a +:+ b)).
    cbn [str_find String.length]. destruct (Ascii.eqb x c); [reflexivity|].
    cbv zeta. rewrite IH.
    pose proof (str_find_lower c a) as Ha. pose proof (str_find_lower c b) as Hb.
    destruct (Z.eq_dec (str_find c a) (-1)) as [Ea|Ea].
    + rewrite Ea. cbn [Z.eqb Pos.eqb Z.opp].
      destruct (Z.eq_dec (str_find c b) (-1)) as [Eb|Eb].
      * rewrite Eb. reflexivity.
      * rewrite !(Hne (str_find c b)) by exact Eb. rewrite Hne by lia. lia.
    + rewrite !(Hne (str_find c a)) by exact Ea. rewrite Hne by lia.
      reflexivity.
Qed.

Lemma str_length_app (a b : string) :
  String.length (a +:+ b) = (String.length a + String.length b)%nat.
Proof.
  induction a as [|x a IH]; [reflexivity|].
  change (String x a +:+ b) with (String x (a +:+ b)). simpl. now rewrite IH.
Qed.

Lemma str_app_assoc (a b c : string) : (a +:+ b) +:+ c = a +:+ (b +:+ c).
Proof.
  induction a as [|x a IH]; [reflexivity|].
  change (String x a +:+ b) with (String x (a +:+ b)).
  change (String x (a +:+ b) +:+ c) with (String x ((a +:+ b) +:+ c)).
  now rewrite IH.
Qed.

Lemma str_take_app_le (n : nat) (a b : string) :
  (n <= String.length a)%nat -> str_take n (a +:+ b) = str_take n a.
Proof.
  revert n. induction a as [|x a IH]; intros [|n] Hn; simpl in *;
    try reflexivity; try lia.
  f_equal. apply IH. lia.
Qed.

Lemma str_take_all (a : string) : str_take (String.length a) a = a.
Proof. induction a as [|x a IH]; simpl; [reflexivity|now rewrite IH]. Qed.

Lemma str_drop_app_le (n : nat) (a b : string) :
  (n <= String.length a)%nat -> str_drop n (a +:+ b) = str_drop n a +:+ b.
Proof.
  revert n. induction a as [|x a IH]; intros [|n] Hn; simpl in *;
    try reflexivity; try lia.
  apply IH. lia.
Qed.

Lemma str_drop_all (a b : string) : str_drop (String.length a) (a +:+ b) = b.
Proof. induction a as [|x a IH]; simpl; [now destruct b|exact IH]. Qed.

(** X7: on a type that is [None] both [get_type_prefix] and
    [get_type_postfix] raise; on a string without a colon the prefix is
    the whole type and the postfix is empty; otherwise the type is the
    prefix, a colon and the postfix.  The prefix never holds a colon. *)
Theorem type_prefix_postfix_split (e : Edge) :
  match edge_type e with
  | None => get_type_prefix e = None /\ get_type_postfix e = None
  | Some t =>
      exists p q : string,
        get_type_prefix e = Some p /\ get_type_postfix e = Some q
        /\ str_find ":" p = -1
        /\ if str_find ":" t =? -1 then p = t /\ q = EmptyString
           else t = p +:+ String ":" q
  end.
Proof.
  unfold get_type_prefix, get_type_postfix.
  destruct (edge_type e) as [t|]; [|split; reflexivity].
  destruct (str_find ":" t =? -1) eqn:Hi.
  - apply Z.eqb_eq in Hi. exists t, EmptyString. auto.
  - apply Z.eqb_neq in Hi. pose proof (str_find_lower ":" t) as Hlo.
    destruct (str_find_split ":" t) as [Hsplit Hnone]; [lia|].
    exists (str_slice_to t (str_find ":" t)),
           (str_slice_from t (str_find ":" t + 1)).
    unfold str_slice_to, str_slice_from.
    replace (Z.to_nat (str_find ":" t + 1))
      with (S (Z.to_nat (str_find ":" t))) by lia.
    auto.
Qed.

(** X8: appending a colon and a qualifier [r] to the type of an edge, as
    [nlp_diff] does with [":FN"], [":FP"] and [":Match"], keeps the type
    prefix; the postfix becomes [r] when the type had no colon, and the old
    postfix, a colon and [r] when it had one. *)
Theorem type_prefix_kept_by_suffix (e e' : Edge) (t r : string) :
  edge_type e = Some t ->
  edge_type e' = Some (t +:+ String ":" r) ->
  get_type_prefix e' = get_type_prefix e
  /\ get_type_postfix e'
     = if str_find ":" t =? -1 then Some r
       else (fun q => q +:+ String ":" r) <$> get_type_postfix e.
Proof.
  intros Ht Ht'. unfold get_type_prefix, get_type_postfix.
  rewrite Ht, Ht', str_find_app.
  pose proof (str_find_lower ":" t) as Hlo.
  destruct (str_find ":" t =? -1) eqn:Hi.
  - simpl str_find. simpl (0 =? -1). cbn iota.
    rewrite !if_not_found by lia.
    unfold str_slice_to, str_slice_from.
    rewrite Z.add_0_r, Nat2Z.id.
    rewrite str_take_app_le by lia. rewrite str_take_all.
    replace (Z.to_nat (Z.of_nat (String.length t) + 1))
      with (String.length (t +:+ ":")) by (rewrite str_length_app; simpl; lia).
    replace (t +:+ String ":" r) with ((t +:+ ":") +:+ r)
      by (rewrite str_app_assoc; reflexivity).
    rewrite str_drop_all. auto.
  - apply Z.eqb_neq in Hi.
    destruct (str_find_upper ":" t) as [Hup| ->]; [|simpl in Hi; lia].
    unfold str_slice_to, str_slice_from. simpl.
    rewrite str_take_app_le by lia. rewrite str_drop_app_le by lia.
    rewrite !if_not_found by exact Hi. auto.
Qed.

Lemma type_prefix_kept_by_suffix_witness :
  get_type_prefix (arc_described 0 1 "d" true) = Some "dep"
  /\ get_type_prefix
       (Edge_init (Token_init 0 false) (Token_init 1 false) (Some "l")
                  (Some "dep:FN") None (Some dependency) None true)
     = get_type_prefix (arc_described 0 1 "d" true)
  /\ get_type_postfix
       (Edge_init (Token_init 0 false) (Token_init 1 false) (Some "l")
                  (Some "dep:FN") None (Some dependency) None true)
     = Some "FN".
Proof.
  split; [reflexivity|].
  apply (type_prefix_kept_by_suffix (arc_described 0 1 "d" true) _ "dep" "FN");
    reflexivity.
Defined.

Lemma ltb_flip (x y : string) :
  String.ltb y x = match String.compare x y with Gt => true | _ => false end.
Proof.
  unfold String.ltb. rewrite (String.compare_antisym x y).
  destruct (String.compare y x); reflexivity.
Qed.

Lemma compare_refl_eq (x : string) : String.compare x x = Eq.
Proof.
  induction x as [|c x IH]; simpl; [reflexivity|].
  assert (Hc : Ascii.compare c c = Eq)
    by (unfold Ascii.compare; apply N.compare_refl).
  rewrite Hc. exact IH.
Qed.

(** X9: on two edges whose type, label and note are all strings,
    [lexicographic_order] returns -1, 0 or 1; swapping the edges negates
    the result, and the result is 0 exactly when the two edges have the
    same type, label and note. *)
Theorem lexicographic_order_antisymmetric (a b : Edge)
    (ta la na tb lb nb : string) :
  edge_type a = Some ta -> label a = Some la -> note a = Some na ->
  edge_type b = Some tb -> label b = Some lb -> note b = Some nb ->
  exists r : Z,
    lexicographic_order a b = Ok r
    /\ lexicographic_order b a = Ok (- r)
    /\ (r = -1 \/ r = 0 \/ r = 1)
    /\ (r = 0 <-> ta = tb /\ la = lb /\ na = nb).
Proof.
  intros Hta Hla Hna Htb Hlb Hnb. unfold lexicographic_order.
  rewrite Hta, Hla, Hna, Htb, Hlb, Hnb. unfold str_lt, str_gt, if_test.
  rewrite !ltb_flip. unfold String.ltb.
  rewrite (String.compare_antisym ta tb), (String.compare_antisym la lb),
    (String.compare_antisym na nb).
  destruct (String.compare tb ta) eqn:Ht; simpl.
  - apply String.compare_eq_iff in Ht. subst tb.
    destruct (String.compare lb la) eqn:Hl; simpl.
    + apply String.compare_eq_iff in Hl. subst lb.
      destruct (String.compare nb na) eqn:Hn; simpl.
      * apply String.compare_eq_iff in Hn. subst nb.
        exists 0. repeat split; auto.
      * exists (-1). repeat split; auto; try lia.
        intros (_ & _ & ->). rewrite compare_refl_eq in Hn. discriminate.
      * exists 1. repeat split; auto; try lia.
        intros (_ & _ & ->). rewrite compare_refl_eq in Hn. discriminate.
    + exists (-1). repeat split; auto; try lia.
      intros (_ & -> & _). rewrite compare_refl_eq in Hl. discriminate.
    + exists 1. repeat split; auto; try lia.
      intros (_ & -> & _). rewrite compare_refl_eq in Hl. discriminate.
  - exists 1. repeat split; auto; try lia.
    intros (-> & _). rewrite compare_refl_eq in Ht. discriminate.
  - exists (-1). repeat split; auto; try lia.
    intros (-> & _). rewrite compare_refl_eq in Ht. discriminate.
Qed.

Lemma lexicographic_order_antisymmetric_witness :
  exists r : Z,
    lexicographic_order
      (Edge_init (Token_init 0 false) (Token_init 1 false) (Some "SUBJ")
                 (Some "dep") (Some "n") None None true)
      (Edge_init (Token_init 0 false) (Token_init 1 false) (Some "OBJ")
                 (Some "dep") (Some "n") None None true) = Ok r
    /\ lexicographic_order
         (Edge_init (Token_init 0 false) (Token_init 1 false) (Some "OBJ")
                    (Some "dep") (Some "n") None None true)
         (Edge_init (Token_init 0 false) (Token_init 1 false) (Some "SUBJ")
                    (Some "dep") (Some "n") None None true) = Ok (- r)
    /\ (r = -1 \/ r = 0 \/ r = 1)
    /\ (r = 0 <-> "dep" = "dep" /\ "SUBJ" = "OBJ" /\ "n" = "n").
Proof.
  apply (lexicographic_order_antisymmetric _ _ "dep" "SUBJ" "n" "dep" "OBJ" "n");
    reflexivity.
Defined.

(** X10: [lexicographic_order] raises [TypeError] when one of the two
    types is [None].  On edges with the same string type and the same
    string label, an edge without a note is ordered 0 against any edge,
    while an edge with a note raises [TypeError] against an edge without
    one: the order is not symmetric there. *)
Theorem lexicographic_order_none (a b : Edge) :
  (edge_type a = None \/ edge_type b = None ->
   lexicographic_order a b = Raise TypeError)
  /\ (forall t l : string,
         edge_type a = Some t -> edge_type b = Some t ->
         label a = Some l -> label b = Some l ->
         note a = None ->
         lexicographic_order a b = Ok 0
         /\ (is_Some (note b) -> lexicographic_order b a = Raise TypeError)).
Proof.
  split.
  - intros H. unfold lexicographic_order, str_lt.
    destruct H as [-> | ->]; [reflexivity|].
    destruct (edge_type a); reflexivity.
  - intros t l Hta Htb Hla Hlb Hna. unfold lexicographic_order.
    rewrite Hta, Htb, Hla, Hlb, Hna. unfold str_lt, str_gt, if_test.
    unfold String.ltb. rewrite !compare_refl_eq. split; [reflexivity|].
    intros [n ->]. reflexivity.
Qed.

Lemma lexicographic_order_none_witness :
  lexicographic_order (arc 0 1)
    (Edge_init (Token_init 0 false) (Token_init 1 false) (Some "l")
               (Some "dep") (Some "n") None None true) = Ok 0
  /\ lexicographic_order
       (Edge_init (Token_init 0 false) (Token_init 1 false) (Some "l")
                  (Some "dep") (Some "n") None None true)
       (arc 0 1) = Raise TypeError.
Proof.
  destruct (proj2 (lexicographic_order_none (arc 0 1)
                     (Edge_init (Token_init 0 false) (Token_init 1 false)
                                (Some "l") (Some "dep") (Some "n") None None
                                true))
              "dep" "l" eq_refl eq_refl eq_refl eq_refl eq_refl) as [H0 Hraise].
  split; [exact H0|]. apply Hraise. eexists. reflexivity.
Defined.

(** ** Further properties of [NLPInstance] *)

(** X11: [add_span] and [add_dependency] check their two positions as
    [add_edge] does: with a position that is not a key of [token_map] they
    raise [KeyError] and leave the instance as it was; otherwise they
    return, and the edge list is the old one followed by one edge between
    the two registered tokens with the given label, type and description
    and without a note, of render type span and final for [add_span], of
    render type dependency and with the given [is_final] for
    [add_dependency]; nothing else of the instance changes. *)
Theorem add_span_add_dependency_endpoints (self : NLPInstance) (i j : Z)
    (l t d : option string) (f : bool) :
  (token_map self !! i = None \/ token_map self !! j = None ->
   add_span i j l t d self = (Raise KeyError, self)
   /\ add_dependency i j l t d f self = (Raise KeyError, self))
  /\ (forall s e : Token,
         token_map self !! i = Some s -> token_map self !! j = Some e ->
         (exists (self' : NLPInstance) (x : Edge),
             add_span i j l t d self = (Ok tt, self')
             /\ edges self' = edges self ++ [x]
             /\ start x = s /\ end_ x = e /\ label x = l /\ edge_type x = t
             /\ note x = None /\ render_type x = Some span
             /\ description x = d /\ is_final x = true
             /\ tokens self' = tokens self /\ token_map self' = token_map self
             /\ split_points self' = split_points self
             /\ instance_render_type self' = instance_render_type self)
         /\ (exists (self' : NLPInstance) (x : Edge),
                add_dependency i j l t d f self = (Ok tt, self')
                /\ edges self' = edges self ++ [x]
                /\ start x = s /\ end_ x = e /\ label x = l /\ edge_type x = t
                /\ note x = None /\ render_type x = Some dependency
                /\ description x = d /\ is_final x = f
                /\ tokens self' = tokens self
                /\ token_map self' = token_map self
                /\ split_points self' = split_points self
                /\ instance_render_type self' = instance_render_type self)).
Proof.
  split.
  - intros H. apply is_valid_edge_false in H.
    split;
      [change (add_span i j l t d self)
         with (add_edge i j l t (Some span) d None true self)
      |change (add_dependency i j l t d f self)
         with (add_edge i j l t (Some dependency) d None f self)];
      now apply add_edge_raises.
  - intros s e Hs He.
    split;
      [change (add_span i j l t d self)
         with (add_edge i j l t (Some span) d None true self)
      |change (add_dependency i j l t d f self)
         with (add_edge i j l t (Some dependency) d None f self)];
      now apply add_edge_appends.
Qed.

Lemma add_span_add_dependency_endpoints_witness :
  (add_span 0 99 (Some "NP") (Some "chunk") None (sentence 6)
   = (Raise KeyError, sentence 6)
   /\ add_dependency 0 99 (Some "NP") (Some "chunk") None false (sentence 6)
      = (Raise KeyError, sentence 6))
  /\ (exists (self' : NLPInstance) (x : Edge),
         add_span 2 4 (Some "NP") (Some "chunk") None (sentence 6)
         = (Ok tt, self')
         /\ edges self' = edges (sentence 6) ++ [x]
         /\ start x = Token_init 2 false /\ end_ x = Token_init 4 false
         /\ label x = Some "NP" /\ edge_type x = Some "chunk"
         /\ note x = None /\ render_type x = Some span
         /\ description x = None /\ is_final x = true
         /\ tokens self' = tokens (sentence 6)
         /\ token_map self' = token_map (sentence 6)
         /\ split_points self' = split_points (sentence 6)
         /\ instance_render_type self' = instance_render_type (sentence 6))
  /\ (exists (self' : NLPInstance) (x : Edge),
         add_dependency 2 4 (Some "NP") (Some "chunk") None false (sentence 6)
         = (Ok tt, self')
         /\ edges self' = edges (sentence 6) ++ [x]
         /\ start x = Token_init 2 false /\ end_ x = Token_init 4 false
         /\ label x = Some "NP" /\ edge_type x = Some "chunk"
         /\ note x = None /\ render_type x = Some dependency
         /\ description x = None /\ is_final x = false
         /\ tokens self' = tokens (sentence 6)
         /\ token_map self' = token_map (sentence 6)
         /\ split_points self' = split_points (sentence 6)
         /\ instance_render_type self' = instance_render_type (sentence 6)).
Proof.
  split; [|split].
  - apply (proj1 (add_span_add_dependency_endpoints (sentence 6) 0 99
                    (Some "NP") (Some "chunk") None false)).
    right. reflexivity.
  - apply (proj2 (add_span_add_dependency_endpoints (sentence 6) 2 4
                    (Some "NP") (Some "chunk") None false)
             (Token_init 2 false) (Token_init 4 false)); reflexivity.
  - apply (proj2 (add_span_add_dependency_endpoints (sentence 6) 2 4
                    (Some "NP") (Some "chunk") None false)
             (Token_init 2 false) (Token_init 4 false)); reflexivity.
Defined.

Lemma register_tokens_keys (ts : list Token) (tm : gmap Z Token) (i : Z) :
  is_Some (register_tokens ts tm !! i)
  <-> is_Some (tm !! i) \/ In i (map index ts).
Proof.
  split.
  - intros [t Ht]. apply register_tokens_lookup in Ht as [[Hin Hi]|Ht].
    + right. subst i. now apply in_map.
    + left. eauto.
  - intros [H|H]; [now apply register_tokens_keeps
                  |now apply register_tokens_registered].
Qed.

Lemma well_formed_init (ts : option (list Token)) (rt : RenderType)
    (sp : option (list Z)) :
  well_formed (NLPInstance_init ts None rt sp).
Proof.
  unfold well_formed, NLPInstance_init. simpl. repeat split.
  - intros H. apply register_tokens_keys in H as [[t Ht]|H]; [|exact H].
    rewrite lookup_empty in Ht. discriminate.
  - intros H. apply register_tokens_keys. now right.
  - apply register_tokens_lookup in H as [[_ H]|H]; [exact H|].
    rewrite lookup_empty in H. discriminate.
  - apply register_tokens_lookup in H as [[H _]|H]; [exact H|].
    rewrite lookup_empty in H. discriminate.
  - destruct H.
  - destruct H.
Qed.

Lemma well_formed_add_tokens (ts : list Token) (self : NLPInstance) :
  well_formed self -> well_formed (snd (add_tokens ts self)).
Proof.
  intros (Hkeys & Hreg & Hedges). unfold well_formed. simpl.
  split; [|split].
  - intros i. rewrite register_tokens_keys, map_app, in_app_iff, Hkeys. tauto.
  - intros i t Ht. rewrite in_app_iff.
    apply register_tokens_lookup in Ht as [[Hin Hi]|Ht]; [auto|].
    destruct (Hreg i t Ht). auto.
  - intros e He. destruct (Hedges e He).
    split; apply register_tokens_keeps; assumption.
Qed.

Lemma well_formed_add_edge (self : NLPInstance) (i j : Z) (l ty : option string)
    (rt : option EdgeRenderType) (d n : option string) (f : bool) :
  well_formed self -> well_formed (snd (add_edge i j l ty rt d n f self)).
Proof.
  intros Hwf. destruct (is_valid_edge self i j) eqn:Hv.
  - apply is_valid_edge_true in Hv as (s & e & Hs & He).
    rewrite (add_edge_ok self i j l ty rt d n f s e Hs He). simpl.
    destruct Hwf as (Hkeys & Hreg & Hedges). unfold well_formed. simpl.
    split; [exact Hkeys|]. split; [exact Hreg|].
    intros x Hx. apply in_app_or in Hx as [Hx|[<-|[]]]; [auto|]. simpl.
    destruct (Hreg i s Hs) as [-> _]. destruct (Hreg j e He) as [-> _].
    split; eauto.
  - rewrite (add_edge_raises self i j l ty rt d n f Hv). exact Hwf.
Qed.

(** X12: an instance made by [NLPInstance(tokens, None, ...)] is well
    formed: the keys of [token_map] are the indices of its tokens, each key
    holds a token of the list with that index, and both positions of every
    edge are keys.  [add_tokens], [add_token], [add_edge], [add_span],
    [add_dependency] and [add_split_point] keep an instance well formed,
    whether they return or raise. *)
Theorem well_formed_kept :
  (forall (ts : option (list Token)) (rt : RenderType) (sp : option (list Z)),
      well_formed (NLPInstance_init ts None rt sp))
  /\ (forall self : NLPInstance,
         well_formed self ->
         (forall ts, well_formed (snd (add_tokens ts self)))
         /\ (forall i actual, well_formed (snd (add_token i actual self)))
         /\ (forall i j l ty rt d n f,
                well_formed (snd (add_edge i j l ty rt d n f self)))
         /\ (forall i j l ty d, well_formed (snd (add_span i j l ty d self)))
         /\ (forall i j l ty d f,
                well_formed (snd (add_dependency i j l ty d f self)))
         /\ (forall p, well_formed (snd (add_split_point p self)))).
Proof.
  split; [exact well_formed_init|].
  intros self Hwf.
  split; [|split; [|split; [|split; [|split]]]].
  - intros ts. now apply well_formed_add_tokens.
  - intros [i|] actual.
    + unfold add_token, bind, get, dict_getitem.
      destruct (token_map self !! i); exact Hwf.
    + change (snd (add_token None actual self))
        with (snd (add_tokens
                     [Token_init (Z.of_nat (length (tokens self))) actual] self)).
      now apply well_formed_add_tokens.
  - intros. now apply well_formed_add_edge.
  - intros i j l ty d.
    change (add_span i j l ty d self)
      with (add_edge i j l ty (Some span) d None true self).
    now apply well_formed_add_edge.
  - intros i j l ty d f.
    change (add_dependency i j l ty d f self)
      with (add_edge i j l ty (Some dependency) d None f self).
    now apply well_formed_add_edge.
  - intros p. destruct Hwf as (Hkeys & Hreg & Hedges).
    unfold well_formed. simpl. auto.
Qed.

Lemma well_formed_kept_witness :
  well_formed
    (snd (add_dependency 0 1 (Some "ROOT") (Some "dep") None true
            (snd (add_tokens [Token_init 0 false; Token_init 1 false]
                    (NLPInstance_init None None single None))))).
Proof.
  destruct well_formed_kept as [Hinit Hkept].
  apply Hkept. apply Hkept. apply Hinit.
Defined.

Lemma register_tokens_finds (ts : list Token) (tm : gmap Z Token) (i : Z)
    (t : Token) :
  (forall u, In u ts -> index u = i -> u = t) ->
  (In t ts /\ index t = i) \/ tm !! i = Some t ->
  register_tokens ts tm !! i = Some t.
Proof.
  revert tm. induction ts as [|u ts IH]; intros tm Huniq Hfound.
  - destruct Hfound as [[[] _]|H]. exact H.
  - change (register_tokens ts (<[index u := u]> tm) !! i = Some t).
    apply IH; [intros v Hv; apply Huniq; now right|].
    destruct (decide (index u = i)) as [Hu|Hu].
    + right. assert (Hut : u = t) by (apply Huniq; [now left|exact Hu]).
      rewrite Hut, <- Hu, Hut. apply lookup_insert_eq.
    + rewrite lookup_insert_ne by exact Hu.
      destruct Hfound as [[[->|Hin] Hi]|H]; [contradiction|auto|auto].
Qed.

(** X13: [get_token] raises [KeyError], leaving the instance as it was,
    for an index that is not a key of [token_map]; it returns the token
    [add_token()] has just created when asked for its index; and after
    [add_tokens(ts)] it returns each token of [ts] whose index no other
    token of [ts] has. *)
Theorem get_token_round_trip (self : NLPInstance) :
  (forall i : Z,
      token_map self !! i = None -> get_token i self = (Raise KeyError, self))
  /\ (forall actual : bool,
         get_token (Z.of_nat (length (tokens self)))
                   (snd (add_token None actual self))
         = (Ok (Token_init (Z.of_nat (length (tokens self))) actual),
            snd (add_token None actual self)))
  /\ (forall (ts : list Token) (t : Token),
         In t ts ->
         (forall u, In u ts -> index u = index t -> u = t) ->
         get_token (index t) (snd (add_tokens ts self))
         = (Ok t, snd (add_tokens ts self))).
Proof.
  split; [|split].
  - intros i Hi. unfold get_token, bind, get, dict_getitem. now rewrite Hi.
  - intros actual. unfold get_token, bind, get, dict_getitem. simpl.
    now rewrite lookup_insert_eq.
  - intros ts t Hin Huniq. unfold get_token, bind, get, dict_getitem. simpl.
    rewrite (register_tokens_finds ts (token_map self) (index t) t Huniq);
      auto.
Qed.

Lemma get_token_round_trip_witness :
  get_token 1 (snd (add_tokens [Token_init 0 false; Token_init 1 true]
                      (sentence 0)))
  = (Ok (Token_init 1 true),
     snd (add_tokens [Token_init 0 false; Token_init 1 true] (sentence 0))).
Proof.
  apply (proj2 (proj2 (get_token_round_trip (sentence 0)))
           [Token_init 0 false; Token_init 1 true] (Token_init 1 true)).
  - right. left. reflexivity.
  - intros u [<-|[<-|[]]] Hu; [discriminate Hu|reflexivity].
Defined.

(** X14: [n] calls of [add_token()] never raise; they append the tokens
    with the indices [len(tokens)], ..., [len(tokens) + n - 1] in this
    order, register each of them under its index, and leave every other
    key of [token_map] and the edges as they were. *)
Theorem add_token_consecutive (n : nat) (self : NLPInstance) :
  exists self' : NLPInstance,
    add_n_tokens n self = (Ok tt, self')
    /\ tokens self'
       = tokens self
         ++ map (fun k => Token_init (Z.of_nat (length (tokens self) + k)) false)
                (seq 0 n)
    /\ (forall k : nat,
           (k < n)%nat ->
           token_map self' !! Z.of_nat (length (tokens self) + k)
           = Some (Token_init (Z.of_nat (length (tokens self) + k)) false))
    /\ (forall i : Z,
           (i < Z.of_nat (length (tokens self))
            \/ Z.of_nat (length (tokens self) + n) <= i) ->
           token_map self' !! i = token_map self !! i)
    /\ edges self' = edges self
    /\ split_points self' = split_points self.
Proof.
  induction n as [|n IH].
  - exists self. simpl. rewrite app_nil_r. repeat split; trivial. lia.
  - destruct IH as (s1 & Hrun & Htok & Hnew & Hold & Hed & Hsp).
    exists (set_token_map
              (<[Z.of_nat (length (tokens s1))
                 := Token_init (Z.of_nat (length (tokens s1))) false]>
                 (token_map s1))
              (set_tokens
                 (tokens s1 ++ [Token_init (Z.of_nat (length (tokens s1))) false])
                 s1)).
    split.
    { cbn [add_n_tokens]. unfold bind at 1. rewrite Hrun. reflexivity. }
    assert (Hlen : length (tokens s1) = (length (tokens self) + n)%nat).
    { rewrite Htok, length_app, length_map, length_seq. reflexivity. }
    cbn [tokens token_map edges split_points set_token_map set_tokens].
    rewrite Hlen. repeat split; trivial.
    + rewrite Htok, seq_S, map_app, <- app_assoc. reflexivity.
    + intros k Hk. destruct (decide (k = n)) as [->|Hkn].
      * apply lookup_insert_eq.
      * rewrite lookup_insert_ne by lia. apply Hnew. lia.
    + intros i Hi. rewrite lookup_insert_ne by lia. apply Hold. lia.
Qed.

(** X15: [merge] raises [TypeError] on every pair of instances and leaves
    the instance as it was: the first thing it does with the other instance
    is call one of its lists, [nlp.tokens(i)] or [nlp.edges()]. *)
Theorem merge_always_raises (Token_merge : Token -> Token -> M unit)
    (nlp self : NLPInstance) :
  merge Token_merge nlp self = (Raise TypeError, self).
Proof. apply merge_raises. Qed.

(** ** Further properties of [get_edges] and of the diff *)

Lemma fold_set_add_length {A : Type} (k : A -> A -> bool) (l s : list A) :
  (length (fold_left (set_add k) l s) <= length s + length l)%nat.
Proof.
  revert s. induction l as [|x l IH]; intros s; simpl; [lia|].
  specialize (IH (set_add k s x)). unfold set_add in *.
  destruct (set_contains k s x); [lia|].
  rewrite length_app in IH. simpl in IH. lia.
Qed.

Lemma distinct_keys_filter {A : Type} (k : A -> A -> bool) (f : A -> bool)
    (s : list A) :
  distinct_keys k s -> distinct_keys k (List.filter f s).
Proof.
  induction s as [|x s IH]; simpl; [trivial|]. intros [Hx Hd].
  destruct (f x); simpl; [|auto]. split; [|auto].
  apply set_contains_false. intros e He. apply filter_In in He as [He _].
  revert e He. now apply set_contains_false.
Qed.

Lemma distinct_keys_app {A : Type} (k : A -> A -> bool) (s1 s2 : list A) :
  distinct_keys k s1 -> distinct_keys k s2 ->
  (forall x y, In x s1 -> In y s2 -> k y x = false) ->
  distinct_keys k (s1 ++ s2).
Proof.
  induction s1 as [|x s1 IH]; simpl; intros Hd1 Hd2 Hcross; [exact Hd2|].
  destruct Hd1 as [Hx Hd1]. split.
  - rewrite set_contains_app, Hx. simpl.
    apply set_contains_false. intros y Hy. apply Hcross; auto.
  - apply IH; auto.
Qed.

(** Strings that end in pieces of the same length. *)
Lemma str_app_same_length (a b c d : string) :
  a +:+ c = b +:+ d -> String.length c = String.length d -> a = b /\ c = d.
Proof.
  revert b. induction a as [|x a IH]; intros [|y b] Heq Hlen.
  - auto.
  - exfalso. change (c = String y (b +:+ d)) in Heq.
    rewrite Heq in Hlen. simpl in Hlen. rewrite str_length_app in Hlen. lia.
  - exfalso. change (String x (a +:+ c) = d) in Heq.
    rewrite <- Heq in Hlen. simpl in Hlen. rewrite str_length_app in Hlen. lia.
  - change (String x (a +:+ c) = String y (b +:+ d)) in Heq.
    injection Heq as -> Heq. destruct (IH b Heq Hlen) as [-> ->]. auto.
Qed.

(** The three suffixes of [nlp_diff] never give the same type. *)
Lemma diff_suffixes_apart (t1 t2 s1 s2 : string) :
  In s1 [":FN"; ":FP"; ":Match"] -> In s2 [":FN"; ":FP"; ":Match"] ->
  t1 +:+ s1 = t2 +:+ s2 -> s1 = s2.
Proof.
  assert (Hshort : forall a b s, In s [":FN"; ":FP"] ->
             a +:+ s = b +:+ ":Match" -> False).
  { intros a b s Hs Heq.
    replace (b +:+ ":Match") with ((b +:+ ":Ma") +:+ "tch") in Heq
      by (rewrite str_app_assoc; reflexivity).
    apply str_app_same_length in Heq as [_ Heq].
    - destruct Hs as [<-|[<-|[]]]; discriminate Heq.
    - destruct Hs as [<-|[<-|[]]]; reflexivity. }
  intros H1 H2 Heq.
  destruct H1 as [<-|[<-|[<-|[]]]]; destruct H2 as [<-|[<-|[<-|[]]]];
    try reflexivity;
    try (apply str_app_same_length in Heq as [_ Heq];
         [discriminate Heq|reflexivity]);
    exfalso;
    solve [ eapply Hshort; [|exact Heq]; simpl; auto
          | eapply Hshort; [|symmetry; exact Heq]; simpl; auto ].
Qed.

(** Edges with different suffixes are different, and edges with the same
    suffix are equal only when the edges they come from are. *)
Lemma retyped_Edge_eq (gold : NLPInstance) (s1 s2 : string) (a a' b b' : Edge) :
  In s1 [":FN"; ":FP"; ":Match"] -> In s2 [":FN"; ":FP"; ":Match"] ->
  retyped gold s1 a a' -> retyped gold s2 b b' ->
  Edge_eq a' b' = true -> s1 = s2 /\ Edge_eq a b = true.
Proof.
  intros H1 H2 ((ta & Hta & Hta') & Hla & Hna & _ & _ & _ & _ & Hsa & _ & Hea)
         ((tb & Htb & Htb') & Hlb & Hnb & _ & _ & _ & _ & Hsb & _ & Heb) Heq.
  apply Edge_eq_spec in Heq as (Hs & He & Hl & Ht & Hn).
  rewrite Hta', Htb' in Ht. injection Ht as Ht.
  pose proof (diff_suffixes_apart ta tb s1 s2 H1 H2 Ht) as <-.
  split; [reflexivity|]. apply Edge_eq_spec.
  apply str_app_same_length in Ht as [-> _]; [|reflexivity].
  repeat split; congruence.
Qed.

Lemma Forall2_In_r {A B : Type} (R : A -> B -> Prop) (l : list A) (l' : list B)
    (y : B) :
  Forall2 R l l' -> In y l' -> exists x, In x l /\ R x y.
Proof.
  induction 1 as [|x x' l l' Hx Hl IH]; intros Hy; [destruct Hy|].
  destruct Hy as [<-|Hy].
  - exists x. split; [now left|exact Hx].
  - destruct (IH Hy) as (e & He & Hr). exists e. split; [now right|exact Hr].
Qed.

Lemma retyped_distinct (gold : NLPInstance) (sfx : string) (l l' : list Edge) :
  In sfx [":FN"; ":FP"; ":Match"] ->
  Forall2 (retyped gold sfx) l l' ->
  distinct_keys Edge_eq l -> distinct_keys Edge_eq l'.
Proof.
  intros Hsfx. induction 1 as [|x x' l l' Hx Hl IH]; simpl; [trivial|].
  intros [Hc Hd]. split; [|auto].
  apply set_contains_false. intros e' He'.
  apply not_true_iff_false. intros Heq.
  destruct (Forall2_In_r _ _ _ _ Hl He') as (e & He & Hr).
  destruct (retyped_Edge_eq gold sfx sfx e e' x x' Hsfx Hsfx Hr Hx Heq) as [_ Hex].
  apply set_contains_false with (e := e) in Hc; [congruence|exact He].
Qed.

Section DiffMore.

Variable hash_str : string -> Z.
Variable hash_token : Token -> Z.
Variable hash_int : Z -> Z.

Hypothesis hash_token_eq :
  forall t u : Token, Token_eq t u = true -> hash_token t = hash_token u.

Local Abbreviation same_key := (Edge_same_key hash_str hash_token hash_int).
Local Abbreviation fn := (diff_fn hash_str hash_token hash_int).
Local Abbreviation fp := (diff_fp hash_str hash_token hash_int).
Local Abbreviation matches := (diff_matches hash_str hash_token hash_int).
Local Abbreviation gold_set := (goldIdentities hash_str hash_token hash_int).
Local Abbreviation guess_set := (guessIdentities hash_str hash_token hash_int).
Local Abbreviation get_edges' := (get_edges hash_str hash_token hash_int).

Let key_eq := Edge_same_key_eq hash_str hash_token hash_int hash_token_eq.
Let key_refl := Edge_same_key_refl hash_str hash_token hash_int hash_token_eq.
Let key_sym := Edge_same_key_sym hash_str hash_token hash_int hash_token_eq.
Let key_trans := Edge_same_key_trans hash_str hash_token hash_int hash_token_eq.

Lemma distinct_same_key_Edge_eq (s : list Edge) :
  distinct_keys same_key s <-> distinct_keys Edge_eq s.
Proof.
  split; apply distinct_keys_ext; intros a b; [|symmetry]; apply key_eq.
Qed.

Lemma contains_same_key_Edge_eq (s : list Edge) (e : Edge) :
  set_contains same_key s e = set_contains Edge_eq s e.
Proof. apply set_contains_ext. exact key_eq. Qed.

(** X16: [get_edges(render_type)] returns edges of the instance that
    have the given render type (any edge when it is omitted), no two of
    them equal, and for every such edge of the instance one that is equal
    to it; it never returns more edges than the instance has. *)
Theorem get_edges_by_render_type (self : NLPInstance)
    (rt : option EdgeRenderType) :
  (forall e, In e (get_edges' self rt) ->
             In e (edges self) /\ (rt = None \/ render_type e = rt))
  /\ (forall e, In e (edges self) -> rt = None \/ render_type e = rt ->
                exists r, In r (get_edges' self rt) /\ Edge_eq r e = true)
  /\ distinct_keys Edge_eq (get_edges' self rt)
  /\ (length (get_edges' self rt) <= length (edges self))%nat.
Proof.
  unfold get_edges.
  set (keep := fun e : Edge =>
                 bool_decide (render_type e = rt) || bool_decide (rt = None)).
  assert (Hkeep : forall e, keep e = true <-> rt = None \/ render_type e = rt).
  { intros e. unfold keep. rewrite orb_true_iff, !bool_decide_eq_true. tauto. }
  split; [|split; [|split]].
  - intros e He. apply set_from_iterable_In in He.
    apply filter_In in He as [He Hk]. split; [exact He|now apply Hkeep].
  - intros e He Hrt.
    assert (Hc : set_contains same_key
                   (set_from_iterable same_key (List.filter keep (edges self)))
                   e = true).
    { rewrite set_from_iterable_contains by assumption.
      apply set_contains_In; [exact key_refl|].
      apply filter_In. split; [exact He|now apply Hkeep]. }
    apply set_contains_true in Hc as (r & Hr & Hre).
    exists r. split; [exact Hr|]. now rewrite <- key_eq.
  - apply distinct_same_key_Edge_eq.
    apply set_from_iterable_distinct. exact key_sym.
  - unfold set_from_iterable.
    etransitivity; [apply fold_set_add_length|]. simpl.
    clear. induction (edges self) as [|e l IH]; simpl; [lia|].
    destruct (keep e); simpl; lia.
Qed.

Lemma contains_edges (inst : NLPInstance) (e : Edge) :
  set_contains same_key (get_edges' inst None) e
  = set_contains Edge_eq (edges inst) e.
Proof.
  rewrite get_edges_all, set_from_iterable_contains by assumption.
  apply contains_same_key_Edge_eq.
Qed.

(** X17: an edge is a false negative exactly when it is in the gold set
    and no edge of guess equals it, a false positive exactly when it is in
    the guess set and no edge of gold equals it; every match equals an edge
    of gold and an edge of guess, and every gold edge that equals a guess
    edge equals a match. *)
Theorem diff_sets_membership (gold guess : NLPInstance) :
  (forall e, In e (fn gold guess) <->
             In e (gold_set gold)
             /\ forall g, In g (edges guess) -> Edge_eq g e = false)
  /\ (forall e, In e (fp gold guess) <->
                In e (guess_set guess)
                /\ forall g, In g (edges gold) -> Edge_eq g e = false)
  /\ (forall e, In e (matches gold guess) ->
                (exists g, In g (edges gold) /\ Edge_eq g e = true)
                /\ (exists s, In s (edges guess) /\ Edge_eq s e = true))
  /\ (forall g s, In g (edges gold) -> In s (edges guess) ->
                  Edge_eq g s = true ->
                  exists m, In m (matches gold guess) /\ Edge_eq m g = true).
Proof.
  split; [|split; [|split]].
  - intros e. unfold diff_fn. rewrite set_difference_In.
    unfold guessIdentities. rewrite contains_edges, set_contains_false.
    reflexivity.
  - intros e. unfold diff_fp. rewrite set_difference_In.
    unfold goldIdentities. rewrite contains_edges, set_contains_false.
    reflexivity.
  - intros e He. apply set_intersection_In in He as [Hg Hs]; [|exact key_refl].
    unfold goldIdentities in Hg. unfold guessIdentities in Hs.
    rewrite contains_edges in Hg, Hs.
    apply set_contains_true in Hg. apply set_contains_true in Hs. auto.
  - intros g s Hg Hs Hgs.
    assert (Hrep : forall inst x, In x (edges inst) ->
               exists r, In r (get_edges' inst None) /\ Edge_eq r x = true).
    { intros inst x Hx. apply set_contains_true.
      rewrite <- contains_same_key_Edge_eq, contains_edges.
      apply set_contains_In; [exact Edge_eq_refl|exact Hx]. }
    destruct (Hrep gold g Hg) as (g' & Hg' & Hgg).
    destruct (Hrep guess s Hs) as (s' & Hs' & Hss).
    assert (Hgs' : Edge_eq g' s' = true).
    { apply (Edge_eq_trans g' g s'); [exact Hgg|].
      apply (Edge_eq_trans g s s'); [exact Hgs|]. now rewrite Edge_eq_sym. }
    unfold diff_matches, set_intersection.
    fold (gold_set gold). fold (guess_set guess).
    destruct (length _ <? length _)%nat.
    + exists g'. split; [|exact Hgg]. apply filter_In. split; [exact Hg'|].
      apply set_contains_true. exists s'. split; [exact Hs'|].
      now rewrite key_eq, Edge_eq_sym.
    + exists s'. split.
      * apply filter_In. split; [exact Hs'|].
        apply set_contains_true. exists g'. split; [exact Hg'|].
        now rewrite key_eq.
      * apply (Edge_eq_trans s' g' g); [now rewrite Edge_eq_sym|exact Hgg].
Qed.

Lemma filter_false_nil {A : Type} (f : A -> bool) (l : list A) :
  (forall x, In x l -> f x = false) -> List.filter f l = [].
Proof.
  induction l as [|x l IH]; simpl; intros Hf; [reflexivity|].
  rewrite (Hf x) by now left. apply IH. intros y Hy. apply Hf. now right.
Qed.

Lemma filter_true_In {A : Type} (f : A -> bool) (l : list A) :
  (forall x, In x l -> f x = true) -> List.filter f l = l.
Proof.
  induction l as [|x l IH]; simpl; intros Hf; [reflexivity|].
  rewrite (Hf x) by now left. f_equal. apply IH. intros y Hy. apply Hf. now right.
Qed.

Lemma well_formed_diffable (g : NLPInstance) :
  well_formed g -> (forall e, In e (edges g) -> is_Some (edge_type e)) ->
  forall e, In e (edges g ++ edges g) -> diffable g e.
Proof.
  intros (Hkeys & _ & Hedges) Htyped e He.
  assert (He' : In e (edges g)) by (apply in_app_or in He as [?|?]; assumption).
  destruct (Hedges e He') as [Hs Hd].
  split; [auto|]. split; now apply Hkeys.
Qed.

(** X18: the diff of an instance with itself has no false negative and no
    false positive, and its matches are the edge set of the instance; when
    guess has no edge, the false negatives are the gold set and there is no
    false positive and no match.  For a well-formed instance whose edges
    all have a string type, [nlp_diff(g, g)] returns an instance whose
    edges are the edges of the edge set of [g], one for one, with [":Match"]
    appended to the type. *)
Theorem diff_identical_or_empty :
  (forall g : NLPInstance,
      fn g g = [] /\ fp g g = [] /\ matches g g = gold_set g)
  /\ (forall gold guess : NLPInstance,
         edges guess = [] ->
         fn gold guess = gold_set gold /\ fp gold guess = []
         /\ matches gold guess = [])
  /\ (forall g : NLPInstance,
         well_formed g ->
         (forall e, In e (edges g) -> is_Some (edge_type e)) ->
         exists diff : NLPInstance,
           nlp_diff hash_str hash_token hash_int g g = Ok diff
           /\ Forall2 (retyped g ":Match") (gold_set g) (edges diff)).
Proof.
  assert (Hself : forall g : NLPInstance,
             fn g g = [] /\ fp g g = [] /\ matches g g = gold_set g).
  { intros g.
    assert (Hin : forall x, In x (gold_set g) ->
               set_contains same_key (gold_set g) x = true).
    { intros x Hx. apply set_contains_In; [exact key_refl|exact Hx]. }
    unfold diff_fn, diff_fp, diff_matches, set_difference, set_intersection,
      guessIdentities. fold (gold_set g).
    rewrite Nat.ltb_irrefl.
    split; [|split].
    - apply filter_false_nil. intros x Hx. now rewrite Hin.
    - apply filter_false_nil. intros x Hx. now rewrite Hin.
    - now apply filter_true_In. }
  split; [exact Hself|]. split.
  - intros gold guess Hno.
    unfold diff_fn, diff_fp, diff_matches, set_difference, set_intersection,
      guessIdentities, get_edges.
    rewrite Hno. simpl. split; [|split; reflexivity].
    now apply filter_true_id.
  - intros g Hwf Htyped.
    destruct (nlp_diff_edges hash_str hash_token hash_int g g
                (well_formed_diffable g Hwf Htyped))
      as (diff & fn' & fp' & m' & Hrun & _ & _ & _ & Hed & Hfn & Hfp & Hm).
    destruct (Hself g) as (Hfn0 & Hfp0 & Hm0).
    rewrite Hfn0 in Hfn. rewrite Hfp0 in Hfp. rewrite Hm0 in Hm.
    inversion Hfn; subst. inversion Hfp; subst.
    exists diff. split; [exact Hrun|]. rewrite Hed. exact Hm.
Qed.

(** X19: the instance [nlp_diff] returns has no two equal edges: its edge
    list is its own edge set, with one edge for each false negative, false
    positive and match. *)
Theorem nlp_diff_edges_distinct (gold guess diff : NLPInstance) :
  nlp_diff hash_str hash_token hash_int gold guess = Ok diff ->
  distinct_keys Edge_eq (edges diff)
  /\ get_edges' diff None = edges diff
  /\ length (edges diff)
     = (length (fn gold guess) + length (fp gold guess)
        + length (matches gold guess))%nat.
Proof.
  intros Hrun.
  assert (Hall : forall e, In e (edges gold ++ edges guess) -> diffable gold e).
  { apply (nlp_diff_returns_iff hash_str hash_token hash_int hash_token_eq).
    eauto. }
  destruct (nlp_diff_edges hash_str hash_token hash_int gold guess Hall)
    as (diff' & fn' & fp' & m' & Hrun' & _ & _ & _ & Hed & Hfn & Hfp & Hm).
  rewrite Hrun in Hrun'. inversion Hrun'; subst diff'. clear Hrun'.
  assert (HG : distinct_keys Edge_eq (gold_set gold)).
  { apply distinct_same_key_Edge_eq, get_edges_distinct. exact hash_token_eq. }
  assert (HS : distinct_keys Edge_eq (guess_set guess)).
  { apply distinct_same_key_Edge_eq, get_edges_distinct. exact hash_token_eq. }
  assert (Hdfn : distinct_keys Edge_eq fn').
  { apply (retyped_distinct gold ":FN" (fn gold guess)); simpl; auto.
    now apply distinct_keys_filter. }
  assert (Hdfp : distinct_keys Edge_eq fp').
  { apply (retyped_distinct gold ":FP" (fp gold guess)); simpl; auto.
    now apply distinct_keys_filter. }
  assert (Hdm : distinct_keys Edge_eq m').
  { apply (retyped_distinct gold ":Match" (matches gold guess)); simpl; auto.
    unfold diff_matches, set_intersection.
    destruct (length _ <? length _)%nat; now apply distinct_keys_filter. }
  assert (Hcross : forall s1 s2 l1 l1' l2 l2',
             In s1 [":FN"; ":FP"; ":Match"] -> In s2 [":FN"; ":FP"; ":Match"] ->
             s1 <> s2 ->
             Forall2 (retyped gold s1) l1 l1' -> Forall2 (retyped gold s2) l2 l2' ->
             forall x y, In x l1' -> In y l2' -> Edge_eq y x = false).
  { intros s1 s2 l1 l1' l2 l2' H1 H2 Hne Hl1 Hl2 x y Hx Hy.
    apply not_true_iff_false. intros Heq.
    destruct (Forall2_In_r _ _ _ _ Hl1 Hx) as (a & _ & Ha).
    destruct (Forall2_In_r _ _ _ _ Hl2 Hy) as (b & _ & Hb).
    destruct (retyped_Edge_eq gold s2 s1 b y a x H2 H1 Hb Ha Heq) as [Hs _].
    congruence. }
  assert (Hd : distinct_keys Edge_eq (edges diff)).
  { rewrite Hed. apply distinct_keys_app; [exact Hdfn| |].
    - apply distinct_keys_app; [exact Hdfp|exact Hdm|].
      apply (Hcross ":FP" ":Match" (fp gold guess) fp' (matches gold guess) m');
        simpl; auto; discriminate.
    - intros x y Hx Hy. apply in_app_or in Hy as [Hy|Hy].
      + revert x y Hx Hy.
        apply (Hcross ":FN" ":FP" (fn gold guess) fn' (fp gold guess) fp');
          simpl; auto; discriminate.
      + revert x y Hx Hy.
        apply (Hcross ":FN" ":Match" (fn gold guess) fn' (matches gold guess) m');
          simpl; auto; discriminate. }
  split; [exact Hd|]. split.
  - rewrite get_edges_all. apply set_from_iterable_id; [exact key_sym|].
    now apply distinct_same_key_Edge_eq.
  - rewrite Hed, !length_app.
    rewrite <- (Forall2_length _ _ _ Hfn), <- (Forall2_length _ _ _ Hfp),
      <- (Forall2_length _ _ _ Hm). lia.
Qed.

End DiffMore.

Lemma diff_identical_or_empty_witness :
  exists diff : NLPInstance,
    nlp_diff hash_str_length hash_token_index hash_int_id
             (snd (add_dependency 0 1 (Some "ROOT") (Some "dep") None true
                     (snd (add_tokens [Token_init 0 false; Token_init 1 false]
                             (NLPInstance_init None None single None)))))
             (snd (add_dependency 0 1 (Some "ROOT") (Some "dep") None true
                     (snd (add_tokens [Token_init 0 false; Token_init 1 false]
                             (NLPInstance_init None None single None))))) = Ok diff
    /\ Forall2
         (retyped
            (snd (add_dependency 0 1 (Some "ROOT") (Some "dep") None true
                    (snd (add_tokens [Token_init 0 false; Token_init 1 false]
                            (NLPInstance_init None None single None)))))
            ":Match")
         (goldIdentities hash_str_length hash_token_index hash_int_id
            (snd (add_dependency 0 1 (Some "ROOT") (Some "dep") None true
                    (snd (add_tokens [Token_init 0 false; Token_init 1 false]
                            (NLPInstance_init None None single None))))))
         (edges diff).
Proof.
  apply (diff_identical_or_empty hash_str_length hash_token_index hash_int_id
           hash_token_index_compat).
  - apply well_formed_add_edge, well_formed_add_tokens, well_formed_init.
  - intros e [<-|[]]. eexists. reflexivity.
Defined.


Lemma get_edges_by_render_type_witness :
  exists r : Edge,
    In r (get_edges hash_str_length hash_token_index hash_int_id
            (graph 3 [(0, 1); (1, 2); (0, 1)]) (Some dependency))
    /\ Edge_eq r (arc 1 2) = true.
Proof.
  apply (get_edges_by_render_type hash_str_length hash_token_index hash_int_id
           hash_token_index_compat (graph 3 [(0, 1); (1, 2); (0, 1)])
           (Some dependency)).
  - right. left. reflexivity.
  - right. reflexivity.
Defined.

Lemma diff_sets_membership_witness :
  exists m : Edge,
    In m (diff_matches hash_str_length hash_token_index hash_int_id
            (graph 3 [(0, 1); (1, 2)]) (graph 3 [(0, 1)]))
    /\ Edge_eq m (arc 0 1) = true.
Proof.
  apply (proj2 (proj2 (proj2
           (diff_sets_membership hash_str_length hash_token_index hash_int_id
              hash_token_index_compat (graph 3 [(0, 1); (1, 2)])
              (graph 3 [(0, 1)]))))
           (arc 0 1) (arc 0 1)).
  - vm_compute. left. reflexivity.
  - vm_compute. left. reflexivity.
  - reflexivity.
Defined.

Lemma nlp_diff_edges_distinct_witness :
  match nlp_diff hash_str_length hash_token_index hash_int_id
                 (graph 3 [(0, 1); (1, 2)]) (graph 3 [(0, 1); (2, 1)]) with
  | Ok diff => distinct_keys Edge_eq (edges diff)
  | Raise _ => False
  end.
Proof.
  destruct (nlp_diff hash_str_length hash_token_index hash_int_id
              (graph 3 [(0, 1); (1, 2)]) (graph 3 [(0, 1); (2, 1)]))
    as [diff|exc] eqn:Hrun.
  - apply (nlp_diff_edges_distinct hash_str_length hash_token_index hash_int_id
             hash_token_index_compat _ _ diff Hrun).
  - vm_compute in Hrun. discriminate Hrun.
Defined.

(** X20: [overlaps(a, b)] holds exactly when
    [a.min <= b.min <= a.max <= b.max], the second chain of the
    disjunction adding no case; every edge overlaps itself, and two edges
    overlap each other in both directions exactly when they cover each
    other exactly. *)
Theorem overlaps_first_chain (a b : Edge) :
  (overlaps a b = true <->
   get_min_index a <= get_min_index b <= get_max_index a
   /\ get_max_index a <= get_max_index b)
  /\ overlaps a a = true
  /\ overlaps a b && overlaps b a = covers_exactly a b.
Proof.
  split; [apply overlaps_spec|]. split.
  - apply overlaps_spec. pose proof (min_le_max a). lia.
  - apply eq_true_iff_eq.
    rewrite andb_true_iff, !overlaps_spec, covers_exactly_spec.
    pose proof (min_le_max a). lia.
Qed.
